(** * The subscription transport manager of the Albatross RPC client

    A shallow embedding of [WebSocketClient] (client/web-socket.ts): the
    constructor, [subscribe], the [Subscription] object it returns and the
    three transport handlers it installs.  The client object is mutable and
    shared by every [subscribe] call made on it, so the embedding keeps a
    store of client objects, a store of sessions (one per [subscribe] call:
    its transport, its JSON-RPC client and the closure variables of the
    call) and a store of timers.  Everything the event loop can run is an
    [Event]; [step] runs the code of the source for one event. *)

From stdpp Require Import base option list strings.
From Stdlib Require Import ZArith Lia Ascii.

#[local] Open Scope Z_scope.

(** ** Values of the source *)

(** A property of an object literal that is spread into another one: the key
    may be missing, present with the value [undefined], or present with a
    value.  [{...a, ...b}] takes every key that [b] has, also the undefined
    ones. *)
Inductive field (A : Type) : Type :=
| Missing
| Undefined
| Given (a : A).
Arguments Missing {A}.
Arguments Undefined {A}.
Arguments Given {A} a.

(** Reading a property: [None] is [undefined]. *)
Definition spread {A : Type} (dflt : option A) (user : field A) : option A :=
  match user with
  | Missing => dflt
  | Undefined => None
  | Given a => Some a
  end.

(** Functions handed in by the caller ([callback], [onError], [onFailed])
    are opaque to the client: it only calls them.  They are named by a
    number and each call is recorded in the world's log. *)
Definition callback : Type := nat.

(** [RequestArguments] of the JSON-RPC library. *)
Record RequestArguments : Type := {
  method : string;
  params : list string
}.

(** [JSONRPCError] of the JSON-RPC library. *)
Record JSONRPCError : Type := {
  code : Z;
  message : string
}.

(** [retries?: number | (() => boolean)].  The numbers of the source that
    count attempts are integers; a function is called afresh for each
    decision and may look at the outside world, here the tick of the event
    loop. *)
Inductive Retries : Type :=
| RetriesNumber (n : Z)
| RetriesFunction (f : nat → bool).

Record ReconnectSettings : Type := {
  retries : option Retries;
  delay : option Z;
  onFailed : option callback
}.

(** [autoReconnect?: boolean | { retries?, delay?, onFailed? }] *)
Inductive AutoReconnect : Type :=
| AutoReconnectBool (b : bool)
| AutoReconnectObject (r : ReconnectSettings).

(** ** URLs

    The platform's [URL] class: the parsed record, the [pathname] setter and
    [toString].  [host] is the serialised authority (host and port), absent
    when the URL has none; [opaque] says that the path is an opaque string,
    as in [mailto:a] or [localhost:8648], where no slash follows the
    scheme.  The parser itself is the platform's; the constructor of the
    client takes it as an argument ([None] when [new URL] throws). *)
Record URL : Type := {
  protocol : string;
  host : option string;
  pathname : string;
  search : string;
  hash : string;
  opaque : bool
}.

(** [u.pathname = p], for a [p] that is a slash and letters, which the
    setter stores as it is; on a URL with an opaque path the setter does
    nothing. *)
Definition set_pathname (u : URL) (p : string) : URL :=
  if opaque u then u
  else {| protocol := protocol u; host := host u; pathname := p;
          search := search u; hash := hash u; opaque := false |}.

(** [u.toString()]: the two slashes stand before an authority only. *)
Definition URL_toString (u : URL) : string :=
  (protocol u ++
   match host u with
   | Some h => "//" ++ h
   | None => ""
   end ++ pathname u ++ search u ++ hash u)%string.

(** [url.replace(/^http/, 'ws')] *)
Definition replace_http (url : string) : string :=
  if String.prefix "http" url
  then ("ws" ++ String.substring 4 (String.length url - 4) url)%string
  else url.

(** ** The client object *)

Record WebSocketClient : Type := {
  url : URL;
  isOpen : bool;
  explicitlyClosed : bool;
  retriesCount : Z;
  reconnectTimer : option nat
}.

(** [constructor(url: string)] *)
Definition constructor (new_URL : string → option URL) (u : string)
  : option WebSocketClient :=
  match new_URL (replace_http u) with
  | Some wsUrl =>
      Some {| url := set_pathname wsUrl "/ws"%string;
              isOpen := false;
              explicitlyClosed := false;
              retriesCount := 0;
              reconnectTimer := None |}
  | None => None
  end.

(** ** Options, sessions and the world *)

Section Transport.

(** The payload types of [RPCData<Data, Metadata>]. *)
Context {Data Metadata : Type}.

Record RPCData : Type := {
  data : Data;
  metadata : Metadata
}.

(** [NotificationMessageParams] and the notification that carries it. *)
Record NotificationMessageParams : Type := {
  subscription : Z;
  result : RPCData
}.

Definition FilterStreamFn : Type := Data → bool.

(** The [userOptions] argument as the caller built it. *)
Record UserOptions : Type := {
  u_once : field bool;
  u_filter : field FilterStreamFn;
  u_timeout : field Z;
  u_onError : field callback;
  u_autoReconnect : field AutoReconnect
}.

(** [StreamOptions] as [subscribe] reads it after the merge. *)
Record StreamOptions : Type := {
  once : option bool;
  filter : option FilterStreamFn;
  timeout : option Z;
  onError : option callback;
  autoReconnect : option AutoReconnect
}.

Definition WS_DEFAULT_OPTIONS : StreamOptions :=
  {| once := Some false;
     filter := Some (λ _, true);
     timeout := Some 5000;
     onError := None;
     autoReconnect := None |}.

(** [{ ...WS_DEFAULT_OPTIONS, ...userOptions }] *)
Definition merge_options (userOptions : UserOptions) : StreamOptions :=
  {| once := spread (once WS_DEFAULT_OPTIONS) (u_once userOptions);
     filter := spread (filter WS_DEFAULT_OPTIONS) (u_filter userOptions);
     timeout := spread (timeout WS_DEFAULT_OPTIONS) (u_timeout userOptions);
     onError := spread (onError WS_DEFAULT_OPTIONS) (u_onError userOptions);
     autoReconnect :=
       spread (autoReconnect WS_DEFAULT_OPTIONS) (u_autoReconnect userOptions) |}.

(** The [reconnectSettings] constant of [subscribe]. *)
Definition reconnectSettings (options : StreamOptions) : option ReconnectSettings :=
  match autoReconnect options with
  | Some (AutoReconnectObject r) => Some r
  | Some (AutoReconnectBool true) =>
      Some {| retries := None; delay := None; onFailed := None |}
  | _ => None
  end.

(** [canKeepRetrying] of the close handler; [now] is what a function-valued
    [retries] can observe. *)
Definition canKeepRetrying (maxRetries : Retries) (count : Z) (now : nat) : bool :=
  match maxRetries with
  | RetriesNumber n => (n <? 0) || (count <? n)
  | RetriesFunction f => f now
  end.

(** Where a [subscribe] call came from: the caller, or the reconnect timer,
    whose [catch] closure holds the [onError] of the options it was set
    under. *)
Inductive Origin : Type :=
| ByCaller
| ByReconnect (catch_onError : option callback).

(** The handshake of a [subscribe] call: awaited, answered with the
    subscription id, or rejected (timeout included). *)
Inductive Phase : Type :=
| Connecting
| Established (subscriptionId : Z)
| Rejected.

(** One [subscribe] call: the object [this], the arguments, and the
    transport and JSON-RPC client it created.  [closed] and the two
    listener lists are the state of the JSON-RPC client: [onError] and
    [onNotification] add a listener, [close] removes all listeners and
    closes the transport. *)
Record Session : Type := {
  this : nat;
  transport_url : string;
  request : RequestArguments;
  userOptions : UserOptions;
  origin : Origin;
  phase : Phase;
  errorListeners : list callback;
  notificationListeners : list callback;
  closed : bool
}.

(** A timer set by the close handler, with the variables of its closure. *)
Record Timer : Type := {
  t_this : nat;
  t_request : RequestArguments;
  t_userOptions : UserOptions;
  t_onError : option callback;
  t_delay : Z;
  t_pending : bool
}.

(** What the client does to the outside: calls of the caller's functions
    and the console. *)
Inductive Effect : Type :=
| CallbackResult (cb : callback) (r : RPCData)
| CallbackError (cb : callback) (e : JSONRPCError)
| OnError (cb : callback) (msg : string)
| OnFailed (cb : callback)
| ConsoleError (msg : string).

Record World : Type := {
  clients : list WebSocketClient;
  sessions : list Session;
  timers : list Timer;
  now : nat;
  log : list Effect
}.

Definition set_clients (w : World) (cs : list WebSocketClient) : World :=
  {| clients := cs; sessions := sessions w; timers := timers w;
     now := now w; log := log w |}.

Definition set_sessions (w : World) (ss : list Session) : World :=
  {| clients := clients w; sessions := ss; timers := timers w;
     now := now w; log := log w |}.

Definition set_timers (w : World) (ts : list Timer) : World :=
  {| clients := clients w; sessions := sessions w; timers := ts;
     now := now w; log := log w |}.

Definition emit (w : World) (es : list Effect) : World :=
  {| clients := clients w; sessions := sessions w; timers := timers w;
     now := now w; log := log w ++ es |}.

Definition tick (w : World) : World :=
  {| clients := clients w; sessions := sessions w; timers := timers w;
     now := S (now w); log := log w |}.

(** Assignments to the fields of [this]. *)
Definition update_client (w : World) (c : nat)
    (f : WebSocketClient → WebSocketClient) : World :=
  match clients w !! c with
  | Some o => set_clients w (<[c := f o]> (clients w))
  | None => w
  end.

Definition with_isOpen (b : bool) (o : WebSocketClient) : WebSocketClient :=
  {| url := url o; isOpen := b; explicitlyClosed := explicitlyClosed o;
     retriesCount := retriesCount o; reconnectTimer := reconnectTimer o |}.

Definition with_explicitlyClosed (b : bool) (o : WebSocketClient) : WebSocketClient :=
  {| url := url o; isOpen := isOpen o; explicitlyClosed := b;
     retriesCount := retriesCount o; reconnectTimer := reconnectTimer o |}.

Definition with_retriesCount (n : Z) (o : WebSocketClient) : WebSocketClient :=
  {| url := url o; isOpen := isOpen o; explicitlyClosed := explicitlyClosed o;
     retriesCount := n; reconnectTimer := reconnectTimer o |}.

Definition with_reconnectTimer (t : option nat) (o : WebSocketClient) : WebSocketClient :=
  {| url := url o; isOpen := isOpen o; explicitlyClosed := explicitlyClosed o;
     retriesCount := retriesCount o; reconnectTimer := t |}.

Definition update_session (w : World) (s : nat) (f : Session → Session) : World :=
  match sessions w !! s with
  | Some x => set_sessions w (<[s := f x]> (sessions w))
  | None => w
  end.

Definition with_phase (p : Phase) (x : Session) : Session :=
  {| this := this x; transport_url := transport_url x; request := request x;
     userOptions := userOptions x; origin := origin x; phase := p;
     errorListeners := errorListeners x;
     notificationListeners := notificationListeners x; closed := closed x |}.

Definition add_listeners (cb : callback) (x : Session) : Session :=
  {| this := this x; transport_url := transport_url x; request := request x;
     userOptions := userOptions x; origin := origin x; phase := phase x;
     errorListeners := errorListeners x ++ [cb];
     notificationListeners := notificationListeners x ++ [cb];
     closed := closed x |}.

(** [client.close()] of the JSON-RPC library: the listeners are removed and
    the transport is told to close; the close event of the socket comes
    later, as an event of its own. *)
Definition closed_client (x : Session) : Session :=
  {| this := this x; transport_url := transport_url x; request := request x;
     userOptions := userOptions x; origin := origin x; phase := phase x;
     errorListeners := []; notificationListeners := []; closed := true |}.

Definition client_close (w : World) (s : nat) : World :=
  update_session w s closed_client.

(** [setTimeout] and [clearTimeout] *)
Definition setTimeout (w : World) (t : Timer) : World * nat :=
  (set_timers w (timers w ++ [t]), length (timers w)).

Definition cleared (t : Timer) : Timer :=
  {| t_this := t_this t; t_request := t_request t;
     t_userOptions := t_userOptions t; t_onError := t_onError t;
     t_delay := t_delay t; t_pending := false |}.

Definition clearTimeout (w : World) (t : nat) : World :=
  match timers w !! t with
  | Some x => set_timers w (<[t := cleared x]> (timers w))
  | None => w
  end.

(** Calling an optional callback: [f?.(...)]. *)
Definition call_opt (w : World) (f : option callback) (e : callback → Effect) : World :=
  match f with
  | Some cb => emit w [e cb]
  | None => w
  end.

(** ** The methods of [WebSocketClient] *)

(** [clearReconnectTimer()] on the client object [c]. *)
Definition clearReconnectTimer (w : World) (c : nat) : World :=
  match clients w !! c with
  | Some o =>
      match reconnectTimer o with
      | Some t => update_client (clearTimeout w t) c (with_reconnectTimer None)
      | None => w
      end
  | None => w
  end.

(** [subscribe(request, userOptions)] up to its [await]: a transport to the
    stored URL and a JSON-RPC client are created and the request is sent. *)
Definition subscribe (w : World) (c : nat) (req : RequestArguments)
    (uo : UserOptions) (from : Origin) : World :=
  match clients w !! c with
  | Some o =>
      set_sessions w
        (sessions w ++
         [{| this := c;
             transport_url := URL_toString (url o);
             request := req;
             userOptions := uo;
             origin := from;
             phase := Connecting;
             errorListeners := [];
             notificationListeners := [];
             closed := false |}])
  | None => w
  end.

(** The [options] constant of the session's [subscribe] call. *)
Definition options (x : Session) : StreamOptions :=
  merge_options (userOptions x).

(** [subscribe] after its [await], when the request is answered with the
    subscription id: the two assignments to [this], the [Subscription]
    object and the three handlers. *)
Definition subscribe_resolved (w : World) (s : nat) (id : Z) : World :=
  match sessions w !! s with
  | Some x =>
      match phase x with
      | Connecting =>
          let w := update_client w (this x) (with_explicitlyClosed false) in
          let w := update_client w (this x) (with_retriesCount 0) in
          update_session w s (with_phase (Established id))
      | _ => w
      end
  | None => w
  end.

(** The awaited request is rejected: [subscribe] throws.  A call made by
    the reconnect timer has the [catch] handler of the timer's closure. *)
Definition subscribe_rejected (w : World) (s : nat) : World :=
  match sessions w !! s with
  | Some x =>
      match phase x with
      | Connecting =>
          let w := update_session w s (with_phase Rejected) in
          match origin x with
          | ByReconnect f => call_opt w f (λ cb, OnError cb "Failed to reconnect")
          | ByCaller => w
          end
      | _ => w
      end
  | None => w
  end.

(** The function given to [client.onNotification] by [next(callback)]. *)
Definition notification_listener (w : World) (s : nat) (cb : callback)
    (event : NotificationMessageParams) : World :=
  match sessions w !! s with
  | Some x =>
      let r := result event in
      let rejected :=
        match filter (options x) with
        | Some f => negb (f (data r))
        | None => false
        end in
      if rejected then w
      else
        let w := emit w [CallbackResult cb r] in
        match once (options x) with
        | Some true => client_close w s
        | _ => w
        end
  | None => w
  end.

(** The function given to [client.onError] by [next(callback)]. *)
Definition error_listener (w : World) (cb : callback) (e : JSONRPCError) : World :=
  emit w [CallbackError cb e].

(** The [Subscription] object of a session, named by the index of the
    session: [next], which registers the two listeners above, [close],
    [getSubscriptionId] and [isConnectionOpen]. *)
Definition next (w : World) (s : nat) (cb : callback) : World :=
  update_session w s (add_listeners cb).

Definition close (w : World) (s : nat) : World :=
  match sessions w !! s with
  | Some x =>
      let w := update_client w (this x) (with_explicitlyClosed true) in
      client_close w s
  | None => w
  end.

Definition getSubscriptionId (w : World) (s : nat) : option Z :=
  match sessions w !! s with
  | Some x =>
      match phase x with
      | Established id => Some id
      | _ => None
      end
  | None => None
  end.

Definition isConnectionOpen (w : World) (s : nat) : option bool :=
  match sessions w !! s with
  | Some x => isOpen <$> clients w !! this x
  | None => None
  end.

(** [transport.connection.onopen] *)
Definition onopen (w : World) (s : nat) : World :=
  match sessions w !! s with
  | Some x =>
      let w := update_client w (this x) (with_isOpen true) in
      update_client w (this x) (with_retriesCount 0)
  | None => w
  end.

(** The reconnect branch of the close handler, with [this] the object [o]
    at index [c]. *)
Definition reconnect (w : World) (x : Session) (c : nat) (o : WebSocketClient)
    (r : ReconnectSettings) : World :=
  let maxRetries := default (RetriesNumber (-1)) (retries r) in
  let d := default 1000 (delay r) in
  if canKeepRetrying maxRetries (retriesCount o) (now w) then
    let w := update_client w c (with_retriesCount (retriesCount o + 1)) in
    let w := clearReconnectTimer w c in
    let '(w, t) :=
      setTimeout w
        {| t_this := c;
           t_request := request x;
           t_userOptions := userOptions x;
           t_onError := onError (options x);
           t_delay := d;
           t_pending := true |} in
    update_client w c (with_reconnectTimer (Some t))
  else call_opt w (onFailed r) OnFailed.

(** [transport.connection.onclose] *)
Definition onclose (w : World) (s : nat) : World :=
  match sessions w !! s with
  | Some x =>
      let w := update_client w (this x) (with_isOpen false) in
      match clients w !! this x with
      | Some o =>
          if explicitlyClosed o then w
          else
            match reconnectSettings (options x) with
            | Some r => reconnect w x (this x) o r
            | None =>
                call_opt w (onError (options x))
                  (λ cb, OnError cb "WebSocket connection closed unexpectedly")
            end
      | None => w
      end
  | None => w
  end.

(** [transport.connection.onerror] *)
Definition onerror (w : World) (s : nat) (msg : string) : World :=
  match sessions w !! s with
  | Some x =>
      let w := emit w [ConsoleError "WebSocket error"] in
      let w := update_client w (this x) (with_isOpen false) in
      call_opt w (onError (options x)) (λ cb, OnError cb msg)
  | None => w
  end.

(** The function given to [setTimeout] by the close handler. *)
Definition reconnect_timer (w : World) (t : nat) : World :=
  match timers w !! t with
  | Some x =>
      if t_pending x then
        let w := clearTimeout w t in
        subscribe w (t_this x) (t_request x) (t_userOptions x)
          (ByReconnect (t_onError x))
      else w
  | None => w
  end.

(** ** The event loop *)

Inductive Event : Type :=
| CallSubscribe (c : nat) (req : RequestArguments) (uo : UserOptions)
| RequestResolved (s : nat) (id : Z)
| RequestRejected (s : nat)
| CallNext (s : nat) (cb : callback)
| CallClose (s : nat)
| SocketOpen (s : nat)
| SocketClose (s : nat)
| SocketError (s : nat) (msg : string)
| Notification (s : nat) (event : NotificationMessageParams)
| RpcError (s : nat) (e : JSONRPCError)
| TimerFired (t : nat).

(** The [Subscription] object and the handlers exist once the handshake
    has been answered. *)
Definition established (w : World) (s : nat) : bool :=
  match getSubscriptionId w s with
  | Some _ => true
  | None => false
  end.

(** A message that arrives for the JSON-RPC client of a session.  A closed
    client has left its transport and dispatches nothing, also to
    listeners added after the close; an open one calls the listeners that
    are registered when the message is dispatched, all of them, whatever
    one of them does to the client. *)
Definition dispatch_notification (w : World) (s : nat)
    (event : NotificationMessageParams) : World :=
  match sessions w !! s with
  | Some x =>
      if closed x then w
      else foldl (λ w cb, notification_listener w s cb event) w
             (notificationListeners x)
  | None => w
  end.

Definition dispatch_error (w : World) (s : nat) (e : JSONRPCError) : World :=
  match sessions w !! s with
  | Some x =>
      if closed x then w
      else foldl (λ w cb, error_listener w cb e) w (errorListeners x)
  | None => w
  end.

Definition handle (w : World) (ev : Event) : World :=
  match ev with
  | CallSubscribe c req uo => subscribe w c req uo ByCaller
  | RequestResolved s id => subscribe_resolved w s id
  | RequestRejected s => subscribe_rejected w s
  | CallNext s cb => if established w s then next w s cb else w
  | CallClose s => if established w s then close w s else w
  | SocketOpen s => if established w s then onopen w s else w
  | SocketClose s => if established w s then onclose w s else w
  | SocketError s msg => if established w s then onerror w s msg else w
  | Notification s event => dispatch_notification w s event
  | RpcError s e => dispatch_error w s e
  | TimerFired t => reconnect_timer w t
  end.

Definition step (w : World) (ev : Event) : World := tick (handle w ev).

Definition run (w : World) (evs : list Event) : World := foldl step w evs.

Definition start (cs : list WebSocketClient) : World :=
  {| clients := cs; sessions := []; timers := []; now := O; log := [] |}.

End Transport.

(** ** What the properties speak about *)

Section Observations.

Context {Data Metadata : Type}.

(** The variables a [subscribe] call closes over never change: two states
    of a session are states of the same call.  The subscription id, once
    received, is one of them. *)
Definition same_call (x x' : @Session Data) : Prop :=
  this x' = this x ∧
  transport_url x' = transport_url x ∧
  request x' = request x ∧
  userOptions x' = userOptions x ∧
  origin x' = origin x ∧
  ∀ id, phase x = Established id → phase x' = Established id.

Definition evolves (l l' : list (@Session Data)) : Prop :=
  ∀ s x, l !! s = Some x → ∃ x', l' !! s = Some x' ∧ same_call x x'.

(** The client object whose [subscribe] call an event belongs to. *)
Definition subject (w : @World Data Metadata) (ev : @Event Data Metadata)
  : option nat :=
  match ev with
  | CallSubscribe c _ _ => Some c
  | RequestResolved s _ | RequestRejected s | CallNext s _ | CallClose s
  | SocketOpen s | SocketClose s | SocketError s _ | Notification s _
  | RpcError s _ => this <$> sessions w !! s
  | TimerFired t => t_this <$> timers w !! t
  end.

(** The event that completes a handshake. *)
Definition resolves (ev : @Event Data Metadata) : bool :=
  match ev with
  | RequestResolved _ _ => true
  | _ => false
  end.

(** Events that neither complete a handshake nor come from a socket that
    opens or closes nor are a [close()] of the caller. *)
Definition quiet (ev : @Event Data Metadata) : bool :=
  match ev with
  | RequestResolved _ _ | SocketOpen _ | SocketClose _ | CallClose _ => false
  | _ => true
  end.

(** The timer a client object remembers was set for that object. *)
Definition timers_owned (w : @World Data Metadata) : Prop :=
  ∀ c o t, clients w !! c = Some o → reconnectTimer o = Some t →
    ∃ x, timers w !! t = Some x ∧ t_this x = c.

(** How often [onFailed] has been called. *)
Fixpoint failed_calls (l : list (@Effect Data Metadata)) : nat :=
  match l with
  | [] => O
  | OnFailed _ :: l => S (failed_calls l)
  | _ :: l => failed_calls l
  end.

(** The timers that wait to fire. *)
Fixpoint pending_timers (l : list (@Timer Data)) : nat :=
  match l with
  | [] => O
  | t :: l => (if t_pending t then 1 else 0) + pending_timers l
  end%nat.

(** The [subscribe] calls made by a reconnect timer. *)
Fixpoint reconnect_attempts (l : list (@Session Data)) : nat :=
  match l with
  | [] => O
  | x :: l =>
      (match origin x with ByReconnect _ => 1 | ByCaller => 0 end
       + reconnect_attempts l)%nat
  end.

(** The close event of a socket. *)
Definition closing (ev : @Event Data Metadata) : bool :=
  match ev with
  | SocketClose _ => true
  | _ => false
  end.

(** What one event can do to a client object: the URL stays, an object
    other than the event's subject stays as it is, the explicitly-closed
    flag is lowered by a completed handshake only, the counter, the flag
    and the timer handle are left alone by the quiet events, and the timer
    handle is assigned by the close handler only. *)
Definition touched (w : @World Data Metadata) (ev : @Event Data Metadata) (c : nat)
    (o o' : WebSocketClient) : Prop :=
  url o' = url o ∧
  (subject w ev ≠ Some c → o' = o) ∧
  (resolves ev = false → explicitlyClosed o = true → explicitlyClosed o' = true) ∧
  (quiet ev = true →
   explicitlyClosed o' = explicitlyClosed o ∧
   retriesCount o' = retriesCount o ∧
   reconnectTimer o' = reconnectTimer o) ∧
  (closing ev = false → reconnectTimer o' = reconnectTimer o).

(** Every session's transport was opened on the URL of its client object. *)
Definition transport_urls (w : @World Data Metadata) : Prop :=
  ∀ s x, sessions w !! s = Some x →
    ∃ o, clients w !! this x = Some o ∧ transport_url x = URL_toString (url o).

(** The close event of the socket of session [s]. *)
Definition is_close (s : nat) (ev : @Event Data Metadata) : bool :=
  match ev with
  | SocketClose s' => bool_decide (s' = s)
  | _ => false
  end.

Fixpoint closes (s : nat) (evs : list (@Event Data Metadata)) : nat :=
  match evs with
  | [] => O
  | ev :: evs => ((if is_close s ev then 1 else 0) + closes s evs)%nat
  end.

(** A timer that an operation finds stays the timer of the same client
    object; it stays as it is unless the operation clears it. *)
Definition kept (y y' : @Timer Data) (same : Prop) : Prop :=
  t_this y' = t_this y ∧ (same → y' = y).

End Observations.

(** ** Sample data

    A node, a request and some option objects, with integer payloads. *)

Module Sample.

(** What the platform's parser answers on the strings the examples give
    it, as a table: two URLs with an authority, of which the second has no
    path, and a string without slashes, which parses as the scheme
    [localhost] and the opaque path [8648].  Outside the table it answers
    [None]; no example relies on that. *)
Definition new_URL (s : string) : option URL :=
  if String.eqb s "wss://seed1.nimiq.com:8648/some/path" then
    Some {| protocol := "wss:"; host := Some "seed1.nimiq.com:8648"%string;
            pathname := "/some/path"; search := ""; hash := "";
            opaque := false |}
  else if String.eqb s "ws://localhost:8648" then
    Some {| protocol := "ws:"; host := Some "localhost:8648"%string;
            pathname := "/"; search := ""; hash := ""; opaque := false |}
  else if String.eqb s "localhost:8648" then
    Some {| protocol := "localhost:"; host := None; pathname := "8648";
            search := ""; hash := ""; opaque := true |}
  else None.

Definition node : WebSocketClient :=
  {| url := {| protocol := "ws:"; host := Some "localhost:8648"%string;
               pathname := "/ws"; search := ""; hash := ""; opaque := false |};
     isOpen := false;
     explicitlyClosed := false;
     retriesCount := 0;
     reconnectTimer := None |}.

Definition headBlock : RequestArguments :=
  {| method := "subscribeForHeadBlock"; params := ["false"%string] |}.

Definition payload (n : Z) : @RPCData Z unit := {| data := n; metadata := () |}.

Definition block (n : Z) : @NotificationMessageParams Z unit :=
  {| subscription := 11; result := payload n |}.

(** [{}] *)
Definition plain : @UserOptions Z :=
  {| u_once := Missing; u_filter := Missing; u_timeout := Missing;
     u_onError := Missing; u_autoReconnect := Missing |}.

(** [{ filter: d => d > 10 }] *)
Definition above_ten : @UserOptions Z :=
  {| u_once := Missing; u_filter := Given (λ d, 10 <? d); u_timeout := Missing;
     u_onError := Missing; u_autoReconnect := Missing |}.

(** [{ autoReconnect: true }] *)
Definition reconnecting : @UserOptions Z :=
  {| u_once := Missing; u_filter := Missing; u_timeout := Missing;
     u_onError := Missing; u_autoReconnect := Given (AutoReconnectBool true) |}.

(** [{ once: true, autoReconnect: true }] *)
Definition once_reconnecting : @UserOptions Z :=
  {| u_once := Given true; u_filter := Missing; u_timeout := Missing;
     u_onError := Missing; u_autoReconnect := Given (AutoReconnectBool true) |}.

(** [{ onError: f7, autoReconnect: { retries: n, delay: 10, onFailed: f9 } }] *)
Definition bounded (n : Z) : ReconnectSettings :=
  {| retries := Some (RetriesNumber n); delay := Some 10; onFailed := Some 9%nat |}.

Definition retrying (n : Z) : @UserOptions Z :=
  {| u_once := Missing; u_filter := Missing; u_timeout := Missing;
     u_onError := Given 7%nat;
     u_autoReconnect := Given (AutoReconnectObject (bounded n)) |}.

(** [{ onError: f7, autoReconnect: { retries: 0 } }] *)
Definition silent : ReconnectSettings :=
  {| retries := Some (RetriesNumber 0); delay := None; onFailed := None |}.

Definition no_onFailed : @UserOptions Z :=
  {| u_once := Missing; u_filter := Missing; u_timeout := Missing;
     u_onError := Given 7%nat;
     u_autoReconnect := Given (AutoReconnectObject silent) |}.

(** The world after [subscribe(headBlock, uo)] on the node has received the
    subscription id 11. *)
Definition subscribed (uo : @UserOptions Z) : @World Z unit :=
  run (start [node]) [CallSubscribe 0 headBlock uo; RequestResolved 0 11].

(** The session of that call, as it is then. *)
Definition session (uo : @UserOptions Z) : @Session Z :=
  {| this := 0; transport_url := "ws://localhost:8648/ws"; request := headBlock;
     userOptions := uo; origin := ByCaller; phase := Established 11;
     errorListeners := []; notificationListeners := []; closed := false |}.

(** Two client objects with a subscription each; the socket of the second
    has closed and its reconnect timer waits. *)
Definition two_nodes : @World Z unit :=
  run (start [node; node])
    [CallSubscribe 0 headBlock reconnecting; RequestResolved 0 11;
     CallSubscribe 1 headBlock reconnecting; RequestResolved 1 12;
     SocketClose 1].

(** Three subscriptions on one client object, each with the bound [n] on
    the retries, their handshakes answered with 11, 12 and 13. *)
Definition three_streams (n : Z) : @World Z unit :=
  run (start [node])
    [CallSubscribe 0 headBlock (retrying n); RequestResolved 0 11;
     CallSubscribe 0 headBlock (retrying n); RequestResolved 1 12;
     CallSubscribe 0 headBlock (retrying n); RequestResolved 2 13].

(** The session of such a call with the id it received. *)
Definition stream_session (n id : Z) : @Session Z :=
  {| this := 0; transport_url := "ws://localhost:8648/ws"; request := headBlock;
     userOptions := retrying n; origin := ByCaller; phase := Established id;
     errorListeners := []; notificationListeners := []; closed := false |}.

(** The session of a reconnect of [subscribed uo], as the timer makes it. *)
Definition reconnected (uo : @UserOptions Z) : @Session Z :=
  {| this := 0; transport_url := "ws://localhost:8648/ws"; request := headBlock;
     userOptions := uo; origin := ByReconnect (onError (merge_options uo));
     phase := Connecting;
     errorListeners := []; notificationListeners := []; closed := false |}.

End Sample.

(** ** The block streams (modules/blockchain-streams.ts)

    The helpers of [BlockchainStream] that subscribe to head blocks: each
    builds a request and an options object and calls [subscribe] on the
    [WebSocketClient] it holds. *)

(** [BlockSubscriptionType] and [RetrieveType] of the types module: only
    the identity of their members is used. *)
Inductive BlockSubscriptionType : Type := Micro | Macro | Election.

Inductive RetrieveType : Type := Full | Partial.

#[global] Instance BlockSubscriptionType_eq_dec : EqDecision BlockSubscriptionType.
Proof. solve_decision. Defined.

(** A block object as the filters see it: the key [isElectionBlock], which
    micro blocks do not have, with the truthiness of its value, and the rest
    of the object. *)
Record Block : Type := {
  isElectionBlock : field bool;
  block_hash : string
}.

(** A payload as it comes from the wire, typed [any] by [FilterStreamFn]:
    undefined when the result has no [data], or a JSON value.  Of a number
    the filters see only whether it is zero, so an integer stands for it;
    an array is an object without the key. *)
Inductive JSValue : Type :=
| JSUndefined
| JSNull
| JSBoolean (b : bool)
| JSNumber (n : Z)
| JSString (s : string)
| JSObject (b : Block).

(** [!v] is false. *)
Definition truthy (v : JSValue) : bool :=
  match v with
  | JSUndefined | JSNull => false
  | JSBoolean b => b
  | JSNumber n => negb (n =? 0)
  | JSString s => negb (String.eqb s "")
  | JSObject _ => true
  end.

(** [BlockParams] *)
Record BlockParams : Type := {
  retrieve : option RetrieveType
}.

(** What a function throws: the error of [getBlockType], or the
    [TypeError] of the operator [in] on a value that is no object. *)
Inductive Thrown : Type := BlockIsUndefined | TypeError.

Inductive Outcome (A : Type) : Type :=
| Throws (e : Thrown)
| Returns (a : A).
Arguments Throws {A} e.
Arguments Returns {A} a.

#[global] Instance Thrown_eq_dec : EqDecision Thrown.
Proof. solve_decision. Defined.

#[global] Instance Outcome_eq_dec {A : Type} `{EqDecision A} : EqDecision (Outcome A).
Proof. solve_decision. Defined.

(** [getBlockType(block)] *)
Definition getBlockType (block : JSValue) : Outcome BlockSubscriptionType :=
  if negb (truthy block) then Throws BlockIsUndefined
  else
    match block with
    | JSObject b =>
        match isElectionBlock b with
        | Missing => Returns Micro
        | Given true => Returns Election
        | _ => Returns Macro
        end
    | _ => Throws TypeError
    end.

Definition isMicro (b : JSValue) : Outcome bool :=
  match getBlockType b with
  | Returns t => Returns (bool_decide (t = Micro))
  | Throws e => Throws e
  end.

Definition isMacro (b : JSValue) : Outcome bool :=
  match getBlockType b with
  | Returns t => Returns (bool_decide (t = Macro))
  | Throws e => Throws e
  end.

Definition isElection (b : JSValue) : Outcome bool :=
  match getBlockType b with
  | Returns t => Returns (bool_decide (t = Election))
  | Throws e => Throws e
  end.


Section Streams.

Context {Data : Type}.

(** One key of [{ ...a, ...b }]. *)
Definition spread_field {A : Type} (a b : field A) : field A :=
  match b with
  | Missing => a
  | _ => b
  end.

(** The keys of the object literal [WS_DEFAULT_OPTIONS]. *)
Definition default_keys : @UserOptions Data :=
  {| u_once := Given false;
     u_filter := Given (λ _, true);
     u_timeout := Given 5000;
     u_onError := Missing;
     u_autoReconnect := Missing |}.

(** [{ ...WS_DEFAULT_OPTIONS, ...userOptions }] as the helpers build it,
    with [userOptions] possibly undefined. *)
Definition spread_options (userOptions : option (@UserOptions Data))
  : @UserOptions Data :=
  match userOptions with
  | None => default_keys
  | Some u =>
      {| u_once := spread_field (u_once default_keys) (u_once u);
         u_filter := spread_field (u_filter default_keys) (u_filter u);
         u_timeout := spread_field (u_timeout default_keys) (u_timeout u);
         u_onError := spread_field (u_onError default_keys) (u_onError u);
         u_autoReconnect :=
           spread_field (u_autoReconnect default_keys) (u_autoReconnect u) |}
  end.


End Streams.

(** [{ method: 'subscribeForHeadBlock', params: [retrieve === RetrieveType.Full] }]
    with [retrieve = RetrieveType.Full] when the parameter has none. *)
Definition head_block_request (p : BlockParams) : RequestArguments :=
  {| method := "subscribeForHeadBlock";
     params := [match default Full (retrieve p) with
                | Full => "true"
                | Partial => "false"
                end%string] |}.

Section BlockchainStream.

Context {Metadata : Type}.




Definition subscribeForBlocks (w : @World JSValue Metadata) (ws : nat)
    (p : BlockParams) (userOptions : option (@UserOptions JSValue))
  : @World JSValue Metadata :=
  subscribe w ws (head_block_request p) (spread_options userOptions) ByCaller.

(** The filter and the helper of a kind of block. *)
Definition kind_filter (k : BlockSubscriptionType) : JSValue → Outcome bool :=
  match k with
  | Micro => isMicro
  | Macro => isMacro
  | Election => isElection
  end.


End BlockchainStream.

(** ** More of what the properties speak about *)

Section MoreObservations.

Context {Data Metadata : Type}.

(** A pending timer is the one its client object remembers. *)
Definition pending_remembered (w : @World Data Metadata) : Prop :=
  ∀ t y, timers w !! t = Some y → t_pending y = true →
    ∃ o, clients w !! t_this y = Some o ∧ reconnectTimer o = Some t.

(** The firing of a timer. *)
Definition firing (ev : @Event Data Metadata) : bool :=
  match ev with
  | TimerFired _ => true
  | _ => false
  end.

(** A session whose handshake is over keeps its phase, and one that was
    never established keeps having no listeners. *)
Definition still (x x' : @Session Data) : Prop :=
  phase x' = phase x ∧
  ((∀ id, phase x ≠ Established id) →
   notificationListeners x = [] ∧ errorListeners x = [] →
   notificationListeners x' = [] ∧ errorListeners x' = []).

(** The caller can call [next] and [close] on the [Subscription] objects
    that its own [subscribe] calls returned.  The object that the call of a
    reconnect timer returns goes to nobody: the timer's closure keeps only
    the [catch] of the promise. *)
Definition own_call (w : @World Data Metadata) (ev : @Event Data Metadata) : bool :=
  match ev with
  | CallNext s _ | CallClose s =>
      match sessions w !! s with
      | Some x => match origin x with ByCaller => true | ByReconnect _ => false end
      | None => true
      end
  | _ => true
  end.

Fixpoint callers_own (w : @World Data Metadata)
    (evs : list (@Event Data Metadata)) : bool :=
  match evs with
  | [] => true
  | ev :: evs => own_call w ev && callers_own (step w ev) evs
  end.

(** A session of a call made by a reconnect timer, without a listener. *)
Definition unheld (x : @Session Data) : Prop :=
  (∃ f, origin x = ByReconnect f) ∧
  notificationListeners x = [] ∧ errorListeners x = [].

(** An open event that arrives before the handshake of its session is
    answered, as the open event of a socket does: the request is sent
    over the open socket. *)
Definition early_open (w : @World Data Metadata) (ev : @Event Data Metadata) : bool :=
  match ev with
  | SocketOpen s => negb (established w s)
  | _ => true
  end.

Fixpoint opens_early (w : @World Data Metadata)
    (evs : list (@Event Data Metadata)) : bool :=
  match evs with
  | [] => true
  | ev :: evs => early_open w ev && opens_early (step w ev) evs
  end.

(** An established session of the client object [c] whose settings bound
    the retries by the number [k]. *)
Definition budgeted (w : @World Data Metadata) (c : nat) (k : Z) (s : nat) : Prop :=
  ∃ x id r, sessions w !! s = Some x ∧ this x = c ∧
            phase x = Established id ∧
            reconnectSettings (options x) = Some r ∧
            retries r = Some (RetriesNumber k).

(** The close event of the socket of one of the sessions [ss]. *)
Definition is_close_of (ss : list nat) (ev : @Event Data Metadata) : bool :=
  match ev with
  | SocketClose s => bool_decide (s ∈ ss)
  | _ => false
  end.

Fixpoint closes_of (ss : list nat) (evs : list (@Event Data Metadata)) : nat :=
  match evs with
  | [] => O
  | ev :: evs => ((if is_close_of ss ev then 1 else 0) + closes_of ss evs)%nat
  end.


(** Settings that put no bound on the retries: no [retries], or a negative
    number. *)
Definition unbounded (r : ReconnectSettings) : Prop :=
  retries r = None ∨ ∃ n, retries r = Some (RetriesNumber n) ∧ n < 0.

(** Whether the session's filter lets a payload pass. *)
Definition accepts (x : @Session Data) (d : Data) : bool :=
  match filter (options x) with
  | Some f => f d
  | None => true
  end.

(** What the callbacks of a session are called with for a list of
    notifications, in the order of arrival. *)
Definition deliveries (x : @Session Data)
    (ms : list (@NotificationMessageParams Data Metadata))
  : list (@Effect Data Metadata) :=
  mjoin ((λ m, if accepts x (data (result m))
               then (λ cb, CallbackResult cb (result m)) <$> notificationListeners x
               else []) <$> ms).

End MoreObservations.

Module SampleBlocks.

Definition election : JSValue :=
  JSObject {| isElectionBlock := Given true; block_hash := "c3" |}.





(** [{ onError: f7 }] on integer payloads. *)
Definition reporting : @UserOptions Z :=
  {| u_once := Missing; u_filter := Missing; u_timeout := Missing;
     u_onError := Given 7%nat; u_autoReconnect := Missing |}.

End SampleBlocks.

(** * Properties *)

Section Properties.

Context {Data Metadata : Type}.

Abbreviation World := (@World Data Metadata).
Abbreviation Session := (@Session Data).
Abbreviation Event := (@Event Data Metadata).

Implicit Types (w : World) (x : Session) (o : WebSocketClient) (ev : Event).
Implicit Types (s c t : nat) (cb : callback).

(** ** How the stores change under the elementary updates *)

Lemma update_client_sessions w c f : sessions (update_client w c f) = sessions w.
Proof. unfold update_client. by destruct (clients w !! c). Qed.

Lemma update_client_timers w c f : timers (update_client w c f) = timers w.
Proof. unfold update_client. by destruct (clients w !! c). Qed.

Lemma update_client_log w c f : log (update_client w c f) = log w.
Proof. unfold update_client. by destruct (clients w !! c). Qed.

Lemma update_client_now w c f : now (update_client w c f) = now w.
Proof. unfold update_client. by destruct (clients w !! c). Qed.

Lemma update_client_lookup w c f c' :
  clients (update_client w c f) !! c' =
  (if decide (c = c') then f else id) <$> clients w !! c'.
Proof.
  unfold update_client. destruct (clients w !! c) as [o|] eqn:E; simpl.
  - case_decide as Hc.
    + subst c'. rewrite list_lookup_insert_eq by (by eapply lookup_lt_Some).
      by rewrite E.
    + rewrite list_lookup_insert_ne by done. by destruct (clients w !! c').
  - case_decide as Hc.
    + subst c'. by rewrite E.
    + by destruct (clients w !! c').
Qed.

Lemma update_session_clients w s f : clients (update_session w s f) = clients w.
Proof. unfold update_session. by destruct (sessions w !! s). Qed.

Lemma update_session_timers w s f : timers (update_session w s f) = timers w.
Proof. unfold update_session. by destruct (sessions w !! s). Qed.

Lemma update_session_log w s f : log (update_session w s f) = log w.
Proof. unfold update_session. by destruct (sessions w !! s). Qed.

Lemma update_session_now w s f : now (update_session w s f) = now w.
Proof. unfold update_session. by destruct (sessions w !! s). Qed.

Lemma update_session_lookup w s f s' :
  sessions (update_session w s f) !! s' =
  (if decide (s = s') then f else id) <$> sessions w !! s'.
Proof.
  unfold update_session. destruct (sessions w !! s) as [x|] eqn:E; simpl.
  - case_decide as Hs.
    + subst s'. rewrite list_lookup_insert_eq by (by eapply lookup_lt_Some).
      by rewrite E.
    + rewrite list_lookup_insert_ne by done. by destruct (sessions w !! s').
  - case_decide as Hs.
    + subst s'. by rewrite E.
    + by destruct (sessions w !! s').
Qed.

Lemma clearTimeout_clients w t : clients (clearTimeout w t) = clients w.
Proof. unfold clearTimeout. by destruct (timers w !! t). Qed.

Lemma clearTimeout_sessions w t : sessions (clearTimeout w t) = sessions w.
Proof. unfold clearTimeout. by destruct (timers w !! t). Qed.

Lemma clearTimeout_log w t : log (clearTimeout w t) = log w.
Proof. unfold clearTimeout. by destruct (timers w !! t). Qed.

Lemma clearTimeout_now w t : now (clearTimeout w t) = now w.
Proof. unfold clearTimeout. by destruct (timers w !! t). Qed.

Lemma clearTimeout_length w t : length (timers (clearTimeout w t)) = length (timers w).
Proof.
  unfold clearTimeout. destruct (timers w !! t); [|done].
  simpl. by rewrite length_insert.
Qed.

Lemma call_opt_clients w f e : clients (call_opt w f e) = clients w.
Proof. by destruct f. Qed.

Lemma call_opt_sessions w f e : sessions (call_opt w f e) = sessions w.
Proof. by destruct f. Qed.

Lemma call_opt_timers w f e : timers (call_opt w f e) = timers w.
Proof. by destruct f. Qed.

Lemma call_opt_log w f e :
  log (call_opt w f e) = log w ++ match f with Some cb => [e cb] | None => [] end.
Proof. destruct f; simpl; [done|]. by rewrite app_nil_r. Qed.

Lemma client_close_clients w s : clients (client_close w s) = clients w.
Proof. apply update_session_clients. Qed.

Lemma client_close_timers w s : timers (client_close w s) = timers w.
Proof. apply update_session_timers. Qed.

Lemma client_close_log w s : log (client_close w s) = log w.
Proof. apply update_session_log. Qed.

Lemma client_close_options w s s' x :
  sessions w !! s' = Some x →
  ∃ x', sessions (client_close w s) !! s' = Some x' ∧ options x' = options x.
Proof.
  intros E. unfold client_close. rewrite update_session_lookup, E. simpl.
  case_decide; eauto.
Qed.

(** ** The notification listener and the filter *)

Lemma notification_listener_rejects w s x cb event f :
  sessions w !! s = Some x →
  filter (options x) = Some f →
  f (data (result event)) = false →
  notification_listener w s cb event = w.
Proof.
  intros Hx Hf Hr. unfold notification_listener. by rewrite Hx, Hf, Hr.
Qed.

Lemma notification_listener_accepts w s x cb event :
  sessions w !! s = Some x →
  match filter (options x) with
  | Some f => f (data (result event)) = true
  | None => True
  end →
  log (notification_listener w s cb event) =
    log w ++ [CallbackResult cb (result event)] ∧
  clients (notification_listener w s cb event) = clients w ∧
  timers (notification_listener w s cb event) = timers w ∧
  ∃ x', sessions (notification_listener w s cb event) !! s = Some x' ∧
        options x' = options x.
Proof.
  intros Hx Hf. unfold notification_listener. rewrite Hx.
  assert (match filter (options x) with
          | Some f => negb (f (data (result event)))
          | None => false
          end = false) as ->.
  { destruct (filter (options x)); [by rewrite Hf|done]. }
  destruct (once (options x)) as [[]|].
  - rewrite client_close_log, client_close_clients, client_close_timers.
    repeat split; try done. by apply client_close_options.
  - repeat split; eauto.
  - repeat split; eauto.
Qed.

Lemma default_filter_accepts x (d : Data) :
  u_filter (userOptions x) = Missing →
  match filter (options x) with
  | Some f => f d = true
  | None => True
  end.
Proof. intros E. unfold options, merge_options. simpl. by rewrite E. Qed.

Lemma dispatch_rejected w s x event f :
  sessions w !! s = Some x →
  filter (options x) = Some f →
  f (data (result event)) = false →
  dispatch_notification w s event = w.
Proof.
  intros Hx Hf Hr. unfold dispatch_notification. rewrite Hx.
  destruct (closed x); [done|].
  induction (notificationListeners x) as [|cb l IH]; [done|].
  simpl. by erewrite notification_listener_rejects.
Qed.

Lemma dispatch_accepted_fold l : ∀ w s x event,
  sessions w !! s = Some x →
  match filter (options x) with
  | Some f => f (data (result event)) = true
  | None => True
  end →
  log (foldl (λ w cb, notification_listener w s cb event) w l) =
    log w ++ map (λ cb, CallbackResult cb (result event)) l.
Proof.
  induction l as [|cb l IH]; intros w s x event Hx Hf; simpl.
  - by rewrite app_nil_r.
  - destruct (notification_listener_accepts w s x cb event Hx Hf)
      as (Hlog & _ & _ & x' & Hx' & Ho).
    rewrite (IH _ _ x') by (by rewrite ?Ho).
    by rewrite Hlog, <- app_assoc.
Qed.

Lemma next_registers w s x id cb :
  sessions w !! s = Some x →
  phase x = Established id →
  handle w (CallNext s cb) = next w s cb ∧
  sessions (next w s cb) !! s = Some (add_listeners cb x) ∧
  log (next w s cb) = log w.
Proof.
  intros Hx Hp. split; [|split].
  - simpl. unfold established, getSubscriptionId. by rewrite Hx, Hp.
  - unfold next. by rewrite update_session_lookup, decide_True, Hx.
  - apply update_session_log.
Qed.

(** C6: a callback registered with [next] is not called for a notification
    whose payload the filter rejects (the world is left as it was); on a
    subscription whose client is not closed it is called, as every
    callback registered before it, with the result of a notification that
    the filter accepts, and under the default filter, the one of
    [WS_DEFAULT_OPTIONS], that is every notification.  Through a closed
    client no notification reaches a callback. *)
Theorem C6_filter_gates_callback w s x id cb event :
  sessions w !! s = Some x →
  phase x = Established id →
  let w1 := handle w (CallNext s cb) in
  (∀ f, filter (options x) = Some f → f (data (result event)) = false →
        handle w1 (Notification s event) = w1) ∧
  (closed x = false →
   match filter (options x) with
   | Some f => f (data (result event)) = true
   | None => True
   end →
   log (handle w1 (Notification s event)) =
     log w ++ map (λ cb, CallbackResult cb (result event))
                  (notificationListeners x ++ [cb])) ∧
  (closed x = false →
   u_filter (userOptions x) = Missing →
   filter (options x) = filter WS_DEFAULT_OPTIONS ∧
   log (handle w1 (Notification s event)) =
     log w ++ map (λ cb, CallbackResult cb (result event))
                  (notificationListeners x ++ [cb])) ∧
  (closed x = true → handle w1 (Notification s event) = w1).
Proof.
  intros Hx Hp w1.
  destruct (next_registers w s x id cb Hx Hp) as (Hw1 & Hx1 & Hlog).
  unfold w1. rewrite Hw1.
  assert (closed x = false →
          match filter (options x) with
          | Some f => f (data (result event)) = true
          | None => True
          end →
          log (handle (next w s cb) (Notification s event)) =
            log w ++ map (λ cb, CallbackResult cb (result event))
                         (notificationListeners x ++ [cb])) as Hacc.
  { intros Hopen Hf. simpl. unfold dispatch_notification. rewrite Hx1. simpl.
    rewrite Hopen, <- Hlog.
    by eapply dispatch_accepted_fold. }
  split; [|split; [done|split]].
  - intros f Hf Hr. simpl. by eapply dispatch_rejected.
  - intros Hopen Hd. split.
    + unfold options, merge_options. simpl. by rewrite Hd.
    + apply Hacc; [done|]. by apply default_filter_accepts.
  - intros Hcl. simpl. unfold dispatch_notification. rewrite Hx1. simpl.
    by rewrite Hcl.
Qed.

(** ** Errors of the JSON-RPC client *)

Lemma dispatch_error_fold l : ∀ w (e : JSONRPCError),
  let w' := foldl (λ w cb, error_listener w cb e) w l in
  log w' = log w ++ map (λ cb, CallbackError cb e) l ∧
  sessions w' = sessions w ∧ clients w' = clients w ∧ timers w' = timers w.
Proof.
  induction l as [|cb l IH]; intros w e; simpl.
  - by rewrite app_nil_r.
  - destruct (IH (error_listener w cb e) e) as (-> & -> & -> & ->).
    simpl. by rewrite <- app_assoc.
Qed.

(** C8: an error of the JSON-RPC client of an open subscription is handed
    to the callback registered with [next], as to every callback registered
    before it, whatever the filter and [once] of the session are (neither
    is read), and nothing else happens: no session changes, so none is
    closed, and no field of a client object and no timer changes. *)
Theorem C8_errors_bypass_filter w s x id cb (e : JSONRPCError) :
  sessions w !! s = Some x →
  phase x = Established id →
  closed x = false →
  let w1 := handle w (CallNext s cb) in
  log (handle w1 (RpcError s e)) =
    log w ++ map (λ cb, CallbackError cb e) (errorListeners x ++ [cb]) ∧
  sessions (handle w1 (RpcError s e)) = sessions w1 ∧
  closed <$> sessions (handle w1 (RpcError s e)) !! s = Some false ∧
  clients (handle w1 (RpcError s e)) = clients w ∧
  timers (handle w1 (RpcError s e)) = timers w.
Proof.
  intros Hx Hp Hopen w1.
  destruct (next_registers w s x id cb Hx Hp) as (Hw1 & Hx1 & Hlog).
  unfold w1. rewrite Hw1. simpl. unfold dispatch_error. rewrite Hx1. simpl.
  rewrite Hopen.
  destruct (dispatch_error_fold (errorListeners x ++ [cb]) (next w s cb) e)
    as (-> & -> & -> & ->).
  rewrite Hlog, Hx1. simpl. rewrite Hopen. unfold next.
  by rewrite update_session_clients, update_session_timers.
Qed.

(** ** Sessions only grow, and a call keeps its variables *)

Lemma same_call_refl x : same_call x x.
Proof. by repeat split. Qed.

Lemma same_call_trans x y z : same_call x y → same_call y z → same_call x z.
Proof.
  intros (?&?&?&?&?&Hp) (?&?&?&?&?&Hq).
  repeat split; try congruence. intros id Hid. by apply Hq, Hp.
Qed.

Lemma evolves_refl (l : list Session) : evolves l l.
Proof. intros s x Hx. eauto using same_call_refl. Qed.

Lemma evolves_trans (l1 l2 l3 : list Session) :
  evolves l1 l2 → evolves l2 l3 → evolves l1 l3.
Proof.
  intros H12 H23 s x Hx.
  destruct (H12 s x Hx) as (y & Hy & Hxy).
  destruct (H23 s y Hy) as (z & Hz & Hyz).
  eauto using same_call_trans.
Qed.

Lemma evolves_app (l new : list Session) : evolves l (l ++ new).
Proof.
  intros s x Hx. exists x. split; [|apply same_call_refl].
  by apply lookup_app_l_Some.
Qed.

Lemma evolves_update_session w s f :
  (∀ x, sessions w !! s = Some x → same_call x (f x)) →
  evolves (sessions w) (sessions (update_session w s f)).
Proof.
  intros Hf s' x Hx. rewrite update_session_lookup, Hx. simpl.
  case_decide as Hs; [subst s'|]; eauto using same_call_refl.
Qed.

Lemma same_call_add_listeners cb x : same_call x (add_listeners cb x).
Proof. by repeat split. Qed.

Lemma same_call_closed_client x : same_call x (closed_client x).
Proof. by repeat split. Qed.

Lemma same_call_with_phase p x : phase x = Connecting → same_call x (with_phase p x).
Proof. intros Hp. repeat split; try done. intros id. by rewrite Hp. Qed.

Lemma subscribe_evolves w c req uo from :
  evolves (sessions w) (sessions (subscribe w c req uo from)).
Proof.
  unfold subscribe. destruct (clients w !! c); simpl;
    [apply evolves_app | apply evolves_refl].
Qed.

Lemma subscribe_resolved_evolves w s id :
  evolves (sessions w) (sessions (subscribe_resolved w s id)).
Proof.
  unfold subscribe_resolved.
  destruct (sessions w !! s) as [x|] eqn:Hx; [|apply evolves_refl].
  destruct (phase x) eqn:Hp; try apply evolves_refl.
  set (w' := update_client (update_client w _ _) _ _).
  assert (sessions w' = sessions w) as Hs
    by (unfold w'; by rewrite !update_client_sessions).
  rewrite <- Hs. apply evolves_update_session.
  intros y. rewrite Hs, Hx. intros [= <-]. by apply same_call_with_phase.
Qed.

Lemma subscribe_rejected_evolves w s :
  evolves (sessions w) (sessions (subscribe_rejected w s)).
Proof.
  unfold subscribe_rejected.
  destruct (sessions w !! s) as [x|] eqn:Hx; [|apply evolves_refl].
  destruct (phase x) eqn:Hp; try apply evolves_refl.
  assert (evolves (sessions w) (sessions (update_session w s (with_phase Rejected)))).
  { apply evolves_update_session. intros y. rewrite Hx. intros [= <-].
    by apply same_call_with_phase. }
  destruct (origin x); [done|]. by rewrite call_opt_sessions.
Qed.

Lemma client_close_evolves w s :
  evolves (sessions w) (sessions (client_close w s)).
Proof.
  apply evolves_update_session. intros. apply same_call_closed_client.
Qed.

Lemma next_evolves w s cb : evolves (sessions w) (sessions (next w s cb)).
Proof.
  apply evolves_update_session. intros. apply same_call_add_listeners.
Qed.

Lemma close_evolves w s : evolves (sessions w) (sessions (close w s)).
Proof.
  unfold close. destruct (sessions w !! s); [|apply evolves_refl].
  eapply evolves_trans; [|apply client_close_evolves].
  rewrite update_client_sessions. apply evolves_refl.
Qed.

Lemma onopen_sessions w s : sessions (onopen w s) = sessions w.
Proof.
  unfold onopen. destruct (sessions w !! s); [|done].
  by rewrite !update_client_sessions.
Qed.

Lemma clearReconnectTimer_sessions w c :
  sessions (clearReconnectTimer w c) = sessions w.
Proof.
  unfold clearReconnectTimer. destruct (clients w !! c) as [o|]; [|done].
  destruct (reconnectTimer o); [|done].
  by rewrite update_client_sessions, clearTimeout_sessions.
Qed.

Lemma reconnect_sessions w x c o r : sessions (reconnect w x c o r) = sessions w.
Proof.
  unfold reconnect. destruct (canKeepRetrying _ _ _).
  - simpl. rewrite update_client_sessions. simpl.
    by rewrite clearReconnectTimer_sessions, update_client_sessions.
  - by rewrite call_opt_sessions.
Qed.

Lemma onclose_sessions w s : sessions (onclose w s) = sessions w.
Proof.
  unfold onclose. destruct (sessions w !! s) as [x|]; [|done].
  destruct (clients _ !! this x) as [o|]; [|by rewrite update_client_sessions].
  destruct (explicitlyClosed o); [by rewrite update_client_sessions|].
  destruct (reconnectSettings (options x)).
  - by rewrite reconnect_sessions, update_client_sessions.
  - by rewrite call_opt_sessions, update_client_sessions.
Qed.

Lemma onerror_sessions w s msg : sessions (onerror w s msg) = sessions w.
Proof.
  unfold onerror. destruct (sessions w !! s); [|done].
  by rewrite call_opt_sessions, update_client_sessions.
Qed.

Lemma reconnect_timer_evolves w t :
  evolves (sessions w) (sessions (reconnect_timer w t)).
Proof.
  unfold reconnect_timer. destruct (timers w !! t) as [x|]; [|apply evolves_refl].
  destruct (t_pending x); [|apply evolves_refl].
  eapply evolves_trans; [|apply subscribe_evolves].
  rewrite clearTimeout_sessions. apply evolves_refl.
Qed.

Lemma notification_listener_evolves w s cb event :
  evolves (sessions w) (sessions (notification_listener w s cb event)).
Proof.
  unfold notification_listener.
  destruct (sessions w !! s) as [x|]; [|apply evolves_refl].
  destruct (match filter (options x) with Some f => _ | None => _ end);
    [apply evolves_refl|].
  destruct (once (options x)) as [[]|]; try apply evolves_refl.
  apply (client_close_evolves (emit w _)).
Qed.

Lemma dispatch_notification_evolves w s event :
  evolves (sessions w) (sessions (dispatch_notification w s event)).
Proof.
  unfold dispatch_notification.
  destruct (sessions w !! s) as [x|]; [|apply evolves_refl].
  destruct (closed x); [apply evolves_refl|].
  generalize (notificationListeners x). intros l. revert w.
  induction l as [|cb l IH]; intros w; simpl; [apply evolves_refl|].
  eapply evolves_trans; [apply notification_listener_evolves|apply IH].
Qed.

Lemma dispatch_error_sessions w s (e : JSONRPCError) :
  sessions (dispatch_error w s e) = sessions w.
Proof.
  unfold dispatch_error. destruct (sessions w !! s) as [x|]; [|done].
  destruct (closed x); [done|].
  apply dispatch_error_fold.
Qed.

Lemma handle_evolves w ev : evolves (sessions w) (sessions (handle w ev)).
Proof.
  destruct ev; simpl; try destruct (established w s);
    try apply evolves_refl;
    rewrite ?onopen_sessions, ?onclose_sessions, ?onerror_sessions,
      ?dispatch_error_sessions;
    auto using evolves_refl, subscribe_evolves, subscribe_resolved_evolves,
      subscribe_rejected_evolves, next_evolves, close_evolves,
      reconnect_timer_evolves, dispatch_notification_evolves.
Qed.

Lemma step_evolves w ev : evolves (sessions w) (sessions (step w ev)).
Proof. apply handle_evolves. Qed.

Lemma run_evolves evs : ∀ w, evolves (sessions w) (sessions (run w evs)).
Proof.
  induction evs as [|ev evs IH]; intros w; simpl; [apply evolves_refl|].
  eapply evolves_trans; [apply step_evolves|apply IH].
Qed.

(** The subscription id a [Subscription] object reports never changes. *)
Lemma getSubscriptionId_stable w evs s id :
  getSubscriptionId w s = Some id →
  getSubscriptionId (run w evs) s = Some id.
Proof.
  unfold getSubscriptionId. intros H.
  destruct (sessions w !! s) as [x|] eqn:Hx; [|done].
  destruct (phase x) eqn:Hp; try done. injection H as ->.
  destruct (run_evolves evs w s x Hx) as (x' & -> & Hsame).
  destruct Hsame as (_&_&_&_&_&Hph). by rewrite (Hph id Hp).
Qed.

(** ** The fields of the client objects *)

Lemma with_reconnectTimer_id o : with_reconnectTimer (reconnectTimer o) o = o.
Proof. by destruct o. Qed.

Lemma clearReconnectTimer_lookup w c c' :
  clients (clearReconnectTimer w c) !! c' =
  (if decide (c = c') then with_reconnectTimer None else id) <$> clients w !! c'.
Proof.
  unfold clearReconnectTimer. destruct (clients w !! c) as [o|] eqn:Ho.
  - destruct (reconnectTimer o) as [t|] eqn:Ht.
    + by rewrite update_client_lookup, clearTimeout_clients.
    + case_decide as Hc; [subst c'|by destruct (clients w !! c')].
      rewrite Ho. simpl. by rewrite <- Ht, with_reconnectTimer_id.
  - case_decide as Hc; [subst c'; by rewrite Ho|by destruct (clients w !! c')].
Qed.

Lemma clearReconnectTimer_log w c : log (clearReconnectTimer w c) = log w.
Proof.
  unfold clearReconnectTimer. destruct (clients w !! c) as [o|]; [|done].
  destruct (reconnectTimer o); [|done].
  by rewrite update_client_log, clearTimeout_log.
Qed.

Lemma clearReconnectTimer_length w c :
  length (timers (clearReconnectTimer w c)) = length (timers w).
Proof.
  unfold clearReconnectTimer. destruct (clients w !! c) as [o|]; [|done].
  destruct (reconnectTimer o); [|done].
  by rewrite update_client_timers, clearTimeout_length.
Qed.

(** What the close handler does, branch by branch. *)
Section onclose.

Context (w : World) (s : nat) (x : Session) (o : WebSocketClient).
Context (Hx : sessions w !! s = Some x) (Ho : clients w !! this x = Some o).

Lemma onclose_explicit :
  explicitlyClosed o = true →
  onclose w s = update_client w (this x) (with_isOpen false).
Proof.
  intros Hc. unfold onclose. rewrite Hx. simpl.
  rewrite update_client_lookup, decide_True, Ho by done. simpl. by rewrite Hc.
Qed.

Lemma onclose_no_reconnect :
  explicitlyClosed o = false →
  reconnectSettings (options x) = None →
  onclose w s =
    call_opt (update_client w (this x) (with_isOpen false)) (onError (options x))
      (λ cb, OnError cb "WebSocket connection closed unexpectedly").
Proof.
  intros Hc Hr. unfold onclose. rewrite Hx. simpl.
  rewrite update_client_lookup, decide_True, Ho by done. simpl.
  by rewrite Hc, Hr.
Qed.

Lemma onclose_exhausted r :
  explicitlyClosed o = false →
  reconnectSettings (options x) = Some r →
  canKeepRetrying (default (RetriesNumber (-1)) (retries r))
    (retriesCount o) (now w) = false →
  onclose w s =
    call_opt (update_client w (this x) (with_isOpen false)) (onFailed r) OnFailed.
Proof.
  intros Hc Hr Hk. unfold onclose. rewrite Hx. simpl.
  rewrite update_client_lookup, decide_True, Ho by done. simpl.
  rewrite Hc, Hr. unfold reconnect. simpl.
  by rewrite update_client_now, Hk.
Qed.

Lemma onclose_scheduled r :
  explicitlyClosed o = false →
  reconnectSettings (options x) = Some r →
  canKeepRetrying (default (RetriesNumber (-1)) (retries r))
    (retriesCount o) (now w) = true →
  clients (onclose w s) =
    <[this x := {| url := url o; isOpen := false; explicitlyClosed := false;
                   retriesCount := retriesCount o + 1;
                   reconnectTimer := Some (length (timers w)) |}]> (clients w) ∧
  length (timers (onclose w s)) = S (length (timers w)) ∧
  timers (onclose w s) !! length (timers w) =
    Some {| t_this := this x; t_request := request x;
            t_userOptions := userOptions x; t_onError := onError (options x);
            t_delay := default 1000 (delay r); t_pending := true |} ∧
  log (onclose w s) = log w ∧
  sessions (onclose w s) = sessions w.
Proof.
  intros Hc Hr Hk. rewrite onclose_sessions.
  unfold onclose. rewrite Hx. simpl.
  rewrite update_client_lookup, decide_True, Ho by done. simpl.
  rewrite Hc, Hr. unfold reconnect. simpl.
  rewrite update_client_now, Hk. simpl.
  set (w2 := update_client (update_client w _ _) _ _).
  assert (length (timers (clearReconnectTimer w2 (this x))) = length (timers w)) as Hlen.
  { rewrite clearReconnectTimer_length. unfold w2.
    by rewrite !update_client_timers. }
  rewrite !update_client_timers, update_client_log. simpl.
  rewrite length_app, Hlen. simpl.
  rewrite ?clearReconnectTimer_log.
  split; [|split; [lia|split]].
  - apply list_eq. intros c'.
    rewrite update_client_lookup. simpl.
    rewrite clearReconnectTimer_lookup. unfold w2.
    rewrite !update_client_lookup.
    destruct (decide (this x = c')) as [<-|Hne].
    + rewrite Ho. simpl.
      rewrite list_lookup_insert_eq by (by eapply lookup_lt_Some).
      unfold with_reconnectTimer, with_retriesCount, with_isOpen. simpl.
      by rewrite Hc.
    + rewrite list_lookup_insert_ne by done. by destruct (clients w !! c').
  - rewrite <- Hlen. by rewrite lookup_app_r, Nat.sub_diag by lia.
  - unfold w2. by rewrite ?update_client_log.
Qed.

End onclose.

Lemma subscribe_clients w c req uo from :
  clients (subscribe w c req uo from) = clients w.
Proof. unfold subscribe. by destruct (clients w !! c). Qed.

Lemma subscribe_timers w c req uo from :
  timers (subscribe w c req uo from) = timers w.
Proof. unfold subscribe. by destruct (clients w !! c). Qed.

Lemma subscribe_log w c req uo from :
  log (subscribe w c req uo from) = log w.
Proof. unfold subscribe. by destruct (clients w !! c). Qed.

Lemma subscribe_rejected_clients w s :
  clients (subscribe_rejected w s) = clients w.
Proof.
  unfold subscribe_rejected. destruct (sessions w !! s) as [x|]; [|done].
  destruct (phase x); try done.
  destruct (origin x); by rewrite ?call_opt_clients, update_session_clients.
Qed.

Lemma subscribe_rejected_timers w s :
  timers (subscribe_rejected w s) = timers w.
Proof.
  unfold subscribe_rejected. destruct (sessions w !! s) as [x|]; [|done].
  destruct (phase x); try done.
  destruct (origin x); by rewrite ?call_opt_timers, update_session_timers.
Qed.

Lemma notification_listener_clients w s cb event :
  clients (notification_listener w s cb event) = clients w.
Proof.
  unfold notification_listener. destruct (sessions w !! s) as [x|]; [|done].
  destruct (match filter (options x) with Some f => _ | None => _ end); [done|].
  destruct (once (options x)) as [[]|]; try done.
  by rewrite client_close_clients.
Qed.

Lemma notification_listener_timers w s cb event :
  timers (notification_listener w s cb event) = timers w.
Proof.
  unfold notification_listener. destruct (sessions w !! s) as [x|]; [|done].
  destruct (match filter (options x) with Some f => _ | None => _ end); [done|].
  destruct (once (options x)) as [[]|]; try done.
  by rewrite client_close_timers.
Qed.

Lemma dispatch_notification_clients w s event :
  clients (dispatch_notification w s event) = clients w.
Proof.
  unfold dispatch_notification. destruct (sessions w !! s) as [x|]; [|done].
  destruct (closed x); [done|].
  generalize (notificationListeners x). intros l. revert w.
  induction l as [|cb l IH]; intros w; simpl; [done|].
  by rewrite IH, notification_listener_clients.
Qed.

Lemma dispatch_notification_timers w s event :
  timers (dispatch_notification w s event) = timers w.
Proof.
  unfold dispatch_notification. destruct (sessions w !! s) as [x|]; [|done].
  destruct (closed x); [done|].
  generalize (notificationListeners x). intros l. revert w.
  induction l as [|cb l IH]; intros w; simpl; [done|].
  by rewrite IH, notification_listener_timers.
Qed.

Lemma dispatch_error_clients w s (e : JSONRPCError) :
  clients (dispatch_error w s e) = clients w.
Proof.
  unfold dispatch_error. destruct (sessions w !! s) as [x|]; [|done].
  destruct (closed x); [done|].
  apply dispatch_error_fold.
Qed.

Lemma dispatch_error_timers w s (e : JSONRPCError) :
  timers (dispatch_error w s e) = timers w.
Proof.
  unfold dispatch_error. destruct (sessions w !! s) as [x|]; [|done].
  destruct (closed x); [done|].
  apply dispatch_error_fold.
Qed.

Lemma reconnect_timer_clients w t : clients (reconnect_timer w t) = clients w.
Proof.
  unfold reconnect_timer. destruct (timers w !! t) as [x|]; [|done].
  destruct (t_pending x); [|done].
  by rewrite subscribe_clients, clearTimeout_clients.
Qed.

Lemma established_lookup w s :
  established w s = true →
  ∃ x id, sessions w !! s = Some x ∧ phase x = Established id.
Proof.
  unfold established, getSubscriptionId.
  destruct (sessions w !! s) as [x|]; [|done].
  destruct (phase x) eqn:Hp; try done. eauto.
Qed.

Ltac subject_is Hx :=
  let H := fresh in
  intros H; exfalso; apply H; simpl; rewrite Hx; simpl; congruence.

Lemma touched_refl w ev c o : touched w ev c o o.
Proof. by repeat split. Qed.

Lemma handle_client w ev c o :
  clients w !! c = Some o →
  ∃ o', clients (handle w ev) !! c = Some o' ∧ touched w ev c o o'.
Proof.
  intros Ho.
  assert (∀ w', clients w' = clients w →
    ∃ o', clients w' !! c = Some o' ∧ touched w ev c o o') as Hsame.
  { intros w' ->. eauto using touched_refl. }
  destruct ev; simpl.
  - apply Hsame, subscribe_clients.
  - unfold subscribe_resolved.
    destruct (sessions w !! s) as [x|] eqn:Hx; [|by apply Hsame].
    destruct (phase x); try by apply Hsame.
    rewrite update_session_clients, !update_client_lookup, Ho. simpl.
    eexists; split; [done|].
    case_decide as Hc; [|apply touched_refl].
    repeat split; try done. subject_is Hx.
  - apply Hsame, subscribe_rejected_clients.
  - destruct (established w s); [|by apply Hsame].
    apply Hsame. apply update_session_clients.
  - destruct (established w s); [|by apply Hsame].
    unfold close. destruct (sessions w !! s) as [x|] eqn:Hx; [|by apply Hsame].
    rewrite client_close_clients, update_client_lookup, Ho. simpl.
    eexists; split; [done|].
    case_decide as Hc; [|apply touched_refl].
    repeat split; try done. subject_is Hx.
  - destruct (established w s); [|by apply Hsame].
    unfold onopen. destruct (sessions w !! s) as [x|] eqn:Hx; [|by apply Hsame].
    rewrite !update_client_lookup, Ho. simpl.
    eexists; split; [done|].
    case_decide as Hc; [|apply touched_refl].
    repeat split; try done. subject_is Hx.
  - destruct (established w s); [|by apply Hsame].
    destruct (sessions w !! s) as [x|] eqn:Hx;
      [|unfold onclose; rewrite Hx; by apply Hsame].
    destruct (clients w !! this x) as [ox|] eqn:Hox.
    2:{ unfold onclose. rewrite Hx. simpl.
        rewrite update_client_lookup, decide_True, Hox by done. simpl.
        rewrite update_client_lookup, Ho. simpl.
        destruct (decide (this x = c)) as [<-|]; [congruence|].
        eauto using touched_refl. }
    destruct (explicitlyClosed ox) eqn:Hflag.
    { rewrite (onclose_explicit w s x ox) by done.
      rewrite update_client_lookup, Ho. simpl.
      eexists; split; [done|].
      case_decide as Hc; [|apply touched_refl].
      repeat split; try done. subject_is Hx. }
    destruct (reconnectSettings (options x)) as [r|] eqn:Hr.
    2:{ rewrite (onclose_no_reconnect w s x ox) by done.
        rewrite call_opt_clients, update_client_lookup, Ho. simpl.
        eexists; split; [done|].
        case_decide as Hc; [|apply touched_refl].
        repeat split; try done. subject_is Hx. }
    destruct (canKeepRetrying (default (RetriesNumber (-1)) (retries r))
                (retriesCount ox) (now w)) eqn:Hk.
    2:{ rewrite (onclose_exhausted w s x ox Hx Hox r) by done.
        rewrite call_opt_clients, update_client_lookup, Ho. simpl.
        eexists; split; [done|].
        case_decide as Hc; [|apply touched_refl].
        repeat split; try done. subject_is Hx. }
    destruct (onclose_scheduled w s x ox Hx Hox r Hflag Hr Hk) as (-> & _).
    destruct (decide (this x = c)) as [<-|Hne].
    + rewrite list_lookup_insert_eq by (by eapply lookup_lt_Some).
      eexists; split; [done|]. simplify_eq.
      repeat split; try done.
      * subject_is Hx.
      * simpl. congruence.
    + rewrite list_lookup_insert_ne by done. eauto using touched_refl.
  - destruct (established w s); [|by apply Hsame].
    unfold onerror. destruct (sessions w !! s) as [x|] eqn:Hx; [|by apply Hsame].
    rewrite call_opt_clients, update_client_lookup. simpl. rewrite Ho. simpl.
    eexists; split; [done|].
    case_decide as Hc; [|apply touched_refl].
    repeat split; try done. subject_is Hx.
  - apply Hsame, dispatch_notification_clients.
  - apply Hsame, dispatch_error_clients.
  - apply Hsame, reconnect_timer_clients.
Qed.

(** ** Every transport is opened on the URL of its client object *)

Lemma update_session_length w s f :
  length (sessions (update_session w s f)) = length (sessions w).
Proof.
  unfold update_session. destruct (sessions w !! s); [|done].
  simpl. by rewrite length_insert.
Qed.

Lemma notification_listener_length w s cb event :
  length (sessions (notification_listener w s cb event)) = length (sessions w).
Proof.
  unfold notification_listener. destruct (sessions w !! s) as [x|]; [|done].
  destruct (match filter (options x) with Some f => _ | None => _ end); [done|].
  destruct (once (options x)) as [[]|]; try done.
  apply (update_session_length (emit w _)).
Qed.

Lemma dispatch_notification_length w s event :
  length (sessions (dispatch_notification w s event)) = length (sessions w).
Proof.
  unfold dispatch_notification. destruct (sessions w !! s) as [x|]; [|done].
  destruct (closed x); [done|].
  generalize (notificationListeners x). intros l. revert w.
  induction l as [|cb l IH]; intros w; simpl; [done|].
  by rewrite IH, notification_listener_length.
Qed.

(** An event leaves the number of sessions as it is, or adds the session
    of one new [subscribe] call. *)
Lemma handle_sessions_shape w ev :
  length (sessions (handle w ev)) = length (sessions w) ∨
  ∃ c req uo from o,
    clients w !! c = Some o ∧
    sessions (handle w ev) =
      sessions w ++
      [{| this := c; transport_url := URL_toString (url o); request := req;
          userOptions := uo; origin := from; phase := Connecting;
          errorListeners := []; notificationListeners := [];
          closed := false |}].
Proof.
  destruct ev; simpl.
  - unfold subscribe. destruct (clients w !! c) as [o|] eqn:Ho; [|by left].
    right. by exists c, req, uo, ByCaller, o.
  - left. unfold subscribe_resolved. destruct (sessions w !! s) as [x|]; [|done].
    destruct (phase x); try done.
    by rewrite update_session_length, !update_client_sessions.
  - left. unfold subscribe_rejected. destruct (sessions w !! s) as [x|]; [|done].
    destruct (phase x); try done.
    destruct (origin x); by rewrite ?call_opt_sessions, update_session_length.
  - left. destruct (established w s); [|done]. apply update_session_length.
  - left. destruct (established w s); [|done].
    unfold close. destruct (sessions w !! s) as [x|]; [|done].
    unfold client_close. by rewrite update_session_length, update_client_sessions.
  - left. destruct (established w s); [|done]. by rewrite onopen_sessions.
  - left. destruct (established w s); [|done]. by rewrite onclose_sessions.
  - left. destruct (established w s); [|done]. by rewrite onerror_sessions.
  - left. apply dispatch_notification_length.
  - left. by rewrite dispatch_error_sessions.
  - unfold reconnect_timer. destruct (timers w !! t) as [x|]; [|by left].
    destruct (t_pending x); [|by left].
    unfold subscribe. rewrite clearTimeout_clients.
    destruct (clients w !! t_this x) as [o|] eqn:Ho.
    + right. exists (t_this x), (t_request x), (t_userOptions x),
        (ByReconnect (t_onError x)), o.
      split; [done|]. simpl. by rewrite clearTimeout_sessions.
    + left. by rewrite clearTimeout_sessions.
Qed.

Lemma update_client_length w c f :
  length (clients (update_client w c f)) = length (clients w).
Proof.
  unfold update_client. destruct (clients w !! c); [|done].
  simpl. by rewrite length_insert.
Qed.

Lemma clearReconnectTimer_clients_length w c :
  length (clients (clearReconnectTimer w c)) = length (clients w).
Proof.
  unfold clearReconnectTimer. destruct (clients w !! c) as [o|]; [|done].
  destruct (reconnectTimer o); [|done].
  by rewrite update_client_length, clearTimeout_clients.
Qed.

Lemma onclose_clients_length w s :
  length (clients (onclose w s)) = length (clients w).
Proof.
  unfold onclose. destruct (sessions w !! s) as [x|]; [|done].
  destruct (clients _ !! this x) as [o|]; [|apply update_client_length].
  destruct (explicitlyClosed o); [apply update_client_length|].
  destruct (reconnectSettings (options x)) as [r|].
  - unfold reconnect. destruct (canKeepRetrying _ _ _); simpl.
    + rewrite update_client_length. simpl.
      by rewrite clearReconnectTimer_clients_length, !update_client_length.
    + by rewrite call_opt_clients, update_client_length.
  - by rewrite call_opt_clients, update_client_length.
Qed.

Lemma handle_clients_length w ev :
  length (clients (handle w ev)) = length (clients w).
Proof.
  destruct ev; simpl.
  - by rewrite subscribe_clients.
  - unfold subscribe_resolved. destruct (sessions w !! s) as [x|]; [|done].
    destruct (phase x); try done.
    by rewrite update_session_clients, !update_client_length.
  - by rewrite subscribe_rejected_clients.
  - destruct (established w s); [|done].
    unfold next. by rewrite update_session_clients.
  - destruct (established w s); [|done].
    unfold close. destruct (sessions w !! s) as [x|]; [|done].
    by rewrite client_close_clients, update_client_length.
  - destruct (established w s); [|done].
    unfold onopen. destruct (sessions w !! s) as [x|]; [|done].
    by rewrite !update_client_length.
  - destruct (established w s); [|done]. apply onclose_clients_length.
  - destruct (established w s); [|done].
    unfold onerror. destruct (sessions w !! s) as [x|]; [|done].
    by rewrite call_opt_clients, update_client_length.
  - by rewrite dispatch_notification_clients.
  - by rewrite dispatch_error_clients.
  - by rewrite reconnect_timer_clients.
Qed.


Lemma step_client_url w ev c o :
  clients w !! c = Some o →
  ∃ o', clients (step w ev) !! c = Some o' ∧ url o' = url o.
Proof.
  intros Ho. destruct (handle_client w ev c o Ho) as (o' & Ho' & Hu & _).
  eauto.
Qed.


Lemma step_transport_url w ev :
  transport_urls w → transport_urls (step w ev).
Proof.
  intros Hinv s x' Hx'. change (sessions (step w ev)) with (sessions (handle w ev)) in Hx'.
  assert (∀ x, sessions w !! s = Some x →
    ∃ o', clients (step w ev) !! this x' = Some o' ∧
          transport_url x' = URL_toString (url o')) as Hold.
  { intros x Hx. destruct (handle_evolves w ev s x Hx) as (y & Hy & Hsame).
    assert (y = x') as -> by congruence.
    destruct Hsame as (Hthis & Hurl & _).
    destruct (Hinv s x Hx) as (o & Ho & Hu).
    destruct (step_client_url w ev _ o Ho) as (o' & Ho' & Huo).
    exists o'. rewrite Hthis, Hurl. split; [done|congruence]. }
  destruct (handle_sessions_shape w ev) as [Hlen|(c&req&uo&from&o&Ho&Happ)].
  - destruct (lookup_lt_is_Some_2 (sessions w) s) as [x Hx].
    { rewrite <- Hlen. by eapply lookup_lt_Some. }
    by eapply Hold.
  - rewrite Happ in Hx'. apply lookup_app_Some in Hx' as [Hx'|[Hge Hx']].
    + by eapply Hold.
    + apply list_lookup_singleton_Some in Hx' as [_ <-]. simpl.
      destruct (step_client_url w ev c o Ho) as (o' & Ho' & Huo).
      exists o'. split; [done|congruence].
Qed.

Lemma run_transport_url evs : ∀ w,
  transport_urls w → transport_urls (run w evs).
Proof.
  induction evs as [|ev evs IH]; intros w Hinv; simpl; [done|].
  by apply IH, step_transport_url.
Qed.

Lemma substring_all (s : string) : String.substring 0 (String.length s) s = s.
Proof. induction s as [|a s IH]; simpl; [done|]. by rewrite IH. Qed.

Lemma prefix_nil (s : string) : String.prefix "" s = true.
Proof. by destruct s. Qed.

Lemma replace_http_prefix rest :
  replace_http ("http" ++ rest) = ("ws" ++ rest)%string.
Proof.
  unfold replace_http.
  change ("http" ++ rest)%string
    with (String "h"%char (String "t"%char (String "t"%char (String "p"%char rest)))).
  cbn. by rewrite prefix_nil, Nat.sub_0_r, substring_all.
Qed.

(** ** The timers *)

Lemma clearTimeout_lookup w t0 t :
  timers (clearTimeout w t0) !! t =
  (if decide (t0 = t) then cleared else id) <$> timers w !! t.
Proof.
  unfold clearTimeout. destruct (timers w !! t0) as [y|] eqn:E; simpl.
  - case_decide as Ht.
    + subst t. rewrite list_lookup_insert_eq by (by eapply lookup_lt_Some).
      by rewrite E.
    + rewrite list_lookup_insert_ne by done. by destruct (timers w !! t).
  - case_decide as Ht.
    + subst t. by rewrite E.
    + by destruct (timers w !! t).
Qed.

Lemma clearReconnectTimer_timer w c t y :
  timers w !! t = Some y →
  ∃ y', timers (clearReconnectTimer w c) !! t = Some y' ∧
    kept y y' (∀ o, clients w !! c = Some o → reconnectTimer o ≠ Some t).
Proof.
  intros Hy. unfold clearReconnectTimer.
  destruct (clients w !! c) as [o|] eqn:Ho; [|by exists y].
  destruct (reconnectTimer o) as [t0|] eqn:Ht0; [|by exists y].
  rewrite update_client_timers, clearTimeout_lookup, Hy. simpl.
  eexists; split; [done|]. case_decide as Ht; [|done].
  split; [done|]. intros Hn. destruct (Hn o eq_refl). by subst.
Qed.

Lemma onclose_timer w s t y :
  timers w !! t = Some y →
  ∃ y', timers (onclose w s) !! t = Some y' ∧
    kept y y' (∀ x o, sessions w !! s = Some x →
                 clients w !! this x = Some o → reconnectTimer o ≠ Some t).
Proof.
  intros Hy.
  destruct (sessions w !! s) as [x|] eqn:Hx.
  2:{ exists y. split; [|done]. unfold onclose. by rewrite Hx. }
  destruct (clients w !! this x) as [o|] eqn:Ho.
  2:{ exists y. split; [|done]. unfold onclose. rewrite Hx. simpl.
      rewrite update_client_lookup, decide_True, Ho by done. simpl.
      by rewrite update_client_timers. }
  destruct (explicitlyClosed o) eqn:Hflag.
  { rewrite (onclose_explicit w s x o) by done.
    rewrite update_client_timers. by exists y. }
  destruct (reconnectSettings (options x)) as [r|] eqn:Hr.
  2:{ rewrite (onclose_no_reconnect w s x o) by done.
      rewrite call_opt_timers, update_client_timers. by exists y. }
  destruct (canKeepRetrying (default (RetriesNumber (-1)) (retries r))
              (retriesCount o) (now w)) eqn:Hk.
  2:{ rewrite (onclose_exhausted w s x o Hx Ho r) by done.
      rewrite call_opt_timers, update_client_timers. by exists y. }
  unfold onclose. rewrite Hx. simpl.
  rewrite update_client_lookup, decide_True, Ho by done. simpl.
  rewrite Hflag, Hr. unfold reconnect. simpl.
  rewrite update_client_now, Hk. simpl.
  rewrite update_client_timers. simpl.
  set (w2 := update_client (update_client w _ _) _ _).
  assert (timers w2 !! t = Some y) as Hy2
    by (unfold w2; by rewrite !update_client_timers).
  destruct (clearReconnectTimer_timer w2 (this x) t y Hy2) as (y' & Hy' & Hthis & Hsame).
  exists y'. split; [by apply lookup_app_l_Some|]. split; [done|].
  intros Hn. apply Hsame. intros o2. unfold w2.
  rewrite !update_client_lookup, !decide_True, Ho by done. simpl.
  intros [= <-]. simpl. by apply (Hn x o).
Qed.

Lemma subscribe_resolved_timers w s id :
  timers (subscribe_resolved w s id) = timers w.
Proof.
  unfold subscribe_resolved. destruct (sessions w !! s) as [x|]; [|done].
  destruct (phase x); try done.
  by rewrite update_session_timers, !update_client_timers.
Qed.

Lemma close_timers w s : timers (close w s) = timers w.
Proof.
  unfold close. destruct (sessions w !! s) as [x|]; [|done].
  by rewrite client_close_timers, update_client_timers.
Qed.

Lemma onopen_timers w s : timers (onopen w s) = timers w.
Proof.
  unfold onopen. destruct (sessions w !! s) as [x|]; [|done].
  by rewrite !update_client_timers.
Qed.

Lemma onerror_timers w s msg : timers (onerror w s msg) = timers w.
Proof.
  unfold onerror. destruct (sessions w !! s) as [x|]; [|done].
  by rewrite call_opt_timers, update_client_timers.
Qed.

(** What one event does to a timer that is there: the timer remembered by
    the subject of the event may be cleared, no other. *)
Lemma handle_timer w ev t y :
  timers w !! t = Some y →
  ∃ y', timers (handle w ev) !! t = Some y' ∧
    kept y y' (timers_owned w ∧ subject w ev ≠ Some (t_this y)).
Proof.
  intros Hy.
  assert (∀ w', timers w' = timers w →
    ∃ y', timers w' !! t = Some y' ∧
      kept y y' (timers_owned w ∧ subject w ev ≠ Some (t_this y))) as Hsame.
  { intros w' ->. by exists y. }
  destruct ev; simpl.
  - apply Hsame, subscribe_timers.
  - apply Hsame, subscribe_resolved_timers.
  - apply Hsame, subscribe_rejected_timers.
  - destruct (established w s); [|by apply Hsame].
    apply Hsame, update_session_timers.
  - destruct (established w s); [|by apply Hsame]. apply Hsame, close_timers.
  - destruct (established w s); [|by apply Hsame]. apply Hsame, onopen_timers.
  - destruct (established w s); [|by apply Hsame].
    destruct (onclose_timer w s t y Hy) as (y' & Hy' & Hthis & Hkept).
    exists y'. split; [done|]. split; [done|].
    intros [Hown Hsub]. apply Hkept. intros x o Hx Ho Ht.
    destruct (Hown _ o t Ho Ht) as (y0 & Hy0 & Hc).
    apply Hsub. simpl. rewrite Hx. simpl. congruence.
  - destruct (established w s); [|by apply Hsame]. apply Hsame, onerror_timers.
  - apply Hsame, dispatch_notification_timers.
  - apply Hsame, dispatch_error_timers.
  - unfold reconnect_timer.
    destruct (timers w !! t0) as [y0|] eqn:Hy0; [|by exists y].
    destruct (t_pending y0); [|by exists y].
    rewrite subscribe_timers, clearTimeout_lookup, Hy. simpl.
    eexists; split; [done|]. case_decide as Ht; [|done].
    split; [done|]. intros [_ Hsub]. destruct Hsub. subst t0.
    simpl. congruence.
Qed.

Lemma step_clients_back w ev c o' :
  clients (step w ev) !! c = Some o' →
  ∃ o, clients w !! c = Some o ∧ touched w ev c o o'.
Proof.
  change (clients (step w ev)) with (clients (handle w ev)). intros Ho'.
  destruct (lookup_lt_is_Some_2 (clients w) c) as [o Ho].
  { rewrite <- (handle_clients_length w ev). by eapply lookup_lt_Some. }
  destruct (handle_client w ev c o Ho) as (o2 & Ho2 & Ht).
  exists o. split; [done|]. congruence.
Qed.

(** The timer a client object remembers is one of its own, in every world
    that is reached from one where this holds. *)
Lemma step_timers_owned w ev : timers_owned w → timers_owned (step w ev).
Proof.
  intros Hown c o' t Ho' Ht.
  destruct (step_clients_back w ev c o' Ho') as (o & Ho & _ & Hframe & _ & _ & Hclosing).
  change (timers (step w ev)) with (timers (handle w ev)).
  assert (reconnectTimer o = Some t →
          ∃ y, timers (handle w ev) !! t = Some y ∧ t_this y = c) as Hold.
  { intros Hto. destruct (Hown c o t Ho Hto) as (y & Hy & Hc).
    destruct (handle_timer w ev t y Hy) as (y' & Hy' & Hthis & _).
    exists y'. split; [done|congruence]. }
  destruct (closing ev) eqn:Hev; [|apply Hold; by rewrite <- Hclosing].
  destruct ev as [| | | | | |s| | | |]; try done.
  change (clients (step w (SocketClose s))) with (clients (handle w (SocketClose s))) in Ho'.
  assert (handle w (SocketClose s) = w ∨
          ∃ x, sessions w !! s = Some x ∧ handle w (SocketClose s) = onclose w s)
    as [Hh|(x & Hx & Hh)].
  { simpl. destruct (established w s) eqn:He; [|by left]. right.
    destruct (established_lookup w s He) as (x & id & Hx & _). eauto. }
  { apply Hold. rewrite Hh in Ho'. congruence. }
  rewrite Hh in *.
  destruct (decide (this x = c)) as [<-|Hne].
  2:{ apply Hold. rewrite <- Ht. f_equal. symmetry. apply Hframe.
      simpl. rewrite Hx. simpl. congruence. }
  destruct (explicitlyClosed o) eqn:Hflag.
  { rewrite (onclose_explicit w s x o) in * by done.
    rewrite update_client_lookup, decide_True, Ho in Ho' by done.
    injection Ho' as <-. rewrite update_client_timers in *. by apply Hold. }
  destruct (reconnectSettings (options x)) as [r|] eqn:Hr.
  2:{ rewrite (onclose_no_reconnect w s x o) in * by done.
      rewrite call_opt_clients, update_client_lookup, decide_True, Ho in Ho' by done.
      injection Ho' as <-. by apply Hold. }
  destruct (canKeepRetrying (default (RetriesNumber (-1)) (retries r))
              (retriesCount o) (now w)) eqn:Hk.
  2:{ rewrite (onclose_exhausted w s x o Hx Ho r) in * by done.
      rewrite call_opt_clients, update_client_lookup, decide_True, Ho in Ho' by done.
      injection Ho' as <-. by apply Hold. }
  destruct (onclose_scheduled w s x o Hx Ho r Hflag Hr Hk) as (Hc & _ & Hnew & _).
  rewrite Hc, list_lookup_insert_eq in Ho' by (by eapply lookup_lt_Some).
  injection Ho' as <-. simpl in Ht. injection Ht as <-.
  eexists. split; [exact Hnew|done].
Qed.

Lemma run_timers_owned evs : ∀ w, timers_owned w → timers_owned (run w evs).
Proof.
  induction evs as [|ev evs IH]; intros w Hown; simpl; [done|].
  by apply IH, step_timers_owned.
Qed.

Lemma start_timers_owned (cs : list WebSocketClient) :
  Forall (λ o, reconnectTimer o = None) cs →
  timers_owned (start (Data:=Data) (Metadata:=Metadata) cs).
Proof.
  intros Hcs c o t Ho Ht. simpl in Ho.
  rewrite Forall_forall in Hcs.
  assert (reconnectTimer o = None) as Hn
    by (apply Hcs; by eapply list_elem_of_lookup_2).
  congruence.
Qed.

(** ** The explicitly-closed flag *)

Lemma established_true w s x id :
  sessions w !! s = Some x → phase x = Established id → established w s = true.
Proof.
  intros Hx Hp. unfold established, getSubscriptionId. by rewrite Hx, Hp.
Qed.

Lemma step_flag_stays w ev c :
  resolves ev = false →
  explicitlyClosed <$> clients w !! c = Some true →
  explicitlyClosed <$> clients (step w ev) !! c = Some true.
Proof.
  intros Hev Hc. destruct (clients w !! c) as [o|] eqn:Ho; [|done].
  injection Hc as Hc.
  destruct (handle_client w ev c o Ho) as (o' & Ho' & _ & _ & Hflag & _).
  change (clients (step w ev)) with (clients (handle w ev)).
  rewrite Ho'. simpl. f_equal. by apply Hflag.
Qed.

Lemma run_flag_stays evs : ∀ w c,
  Forall (λ ev, resolves ev = false) evs →
  explicitlyClosed <$> clients w !! c = Some true →
  explicitlyClosed <$> clients (run w evs) !! c = Some true.
Proof.
  induction evs as [|ev evs IH]; intros w c Hevs Hc; simpl; [done|].
  inversion Hevs as [|? ? Hev Hrest]; subst.
  by apply IH, step_flag_stays.
Qed.

(** C7, as the code has it: once set, the explicitly-closed flag of a
    client object stays set through every event that is not the completion
    of a handshake; while it is set, the close handler of a session of that
    object sets no timer, calls nothing and touches no session; and the
    completion of the handshake of a [subscribe] call on that object
    clears it. *)
Theorem C7_flag_until_next_handshake w c evs s x id :
  explicitlyClosed <$> clients w !! c = Some true →
  sessions w !! s = Some x →
  this x = c →
  (Forall (λ ev, resolves ev = false) evs →
   explicitlyClosed <$> clients (run w evs) !! c = Some true) ∧
  timers (handle w (SocketClose s)) = timers w ∧
  log (handle w (SocketClose s)) = log w ∧
  sessions (handle w (SocketClose s)) = sessions w ∧
  (phase x = Connecting →
   explicitlyClosed <$> clients (step w (RequestResolved s id)) !! c = Some false).
Proof.
  intros Hc Hx Hthis. split; [intros; by apply run_flag_stays|].
  destruct (clients w !! c) as [o|] eqn:Ho; [|done]. injection Hc as Hc.
  subst c. repeat split.
  - simpl. destruct (established w s); [|done].
    rewrite (onclose_explicit w s x o) by done. apply update_client_timers.
  - simpl. destruct (established w s); [|done].
    rewrite (onclose_explicit w s x o) by done. apply update_client_log.
  - simpl. destruct (established w s); [|done]. apply onclose_sessions.
  - intros Hp. simpl. unfold subscribe_resolved. rewrite Hx, Hp.
    rewrite update_session_clients, !update_client_lookup, !decide_True, Ho by done.
    done.
Qed.

(** ** Exhaustion *)

(** C4, as the code has it: when the close handler finds the connection not
    explicitly closed, reconnection configured and [canKeepRetrying()]
    false, it calls [onFailed] when one is configured and nothing
    otherwise; [onError] is not called and no timer is set. *)
Theorem C4_exhaustion_calls_onFailed_only w s x o r id :
  sessions w !! s = Some x →
  phase x = Established id →
  clients w !! this x = Some o →
  explicitlyClosed o = false →
  reconnectSettings (options x) = Some r →
  canKeepRetrying (default (RetriesNumber (-1)) (retries r))
    (retriesCount o) (now w) = false →
  log (handle w (SocketClose s)) =
    log w ++ match onFailed r with Some cb => [OnFailed cb] | None => [] end ∧
  timers (handle w (SocketClose s)) = timers w.
Proof.
  intros Hx Hp Ho Hc Hr Hk. simpl.
  rewrite (established_true w s x id) by done.
  rewrite (onclose_exhausted w s x o Hx Ho r) by done.
  by rewrite call_opt_log, call_opt_timers, update_client_log, update_client_timers.
Qed.

(** ** Client objects do not share state *)

Lemma notification_listener_other w s0 cb event s :
  s0 ≠ s →
  sessions (notification_listener w s0 cb event) !! s = sessions w !! s.
Proof.
  intros Hne. unfold notification_listener.
  destruct (sessions w !! s0) as [x|]; [|done].
  destruct (match filter (options x) with Some f => _ | None => _ end); [done|].
  destruct (once (options x)) as [[]|]; try done.
  unfold client_close. rewrite update_session_lookup, decide_False by done.
  simpl. by destruct (sessions w !! s).
Qed.

Lemma dispatch_notification_other w s0 event s :
  s0 ≠ s →
  sessions (dispatch_notification w s0 event) !! s = sessions w !! s.
Proof.
  intros Hne. unfold dispatch_notification.
  destruct (sessions w !! s0) as [x|]; [|done].
  destruct (closed x); [done|].
  generalize (notificationListeners x). intros l. revert w.
  induction l as [|cb l IH]; intros w; simpl; [done|].
  by rewrite IH, notification_listener_other.
Qed.

Lemma update_session_other w s0 f s :
  s0 ≠ s → sessions (update_session w s0 f) !! s = sessions w !! s.
Proof.
  intros Hne. rewrite update_session_lookup, decide_False by done.
  by destruct (sessions w !! s).
Qed.

Lemma handle_other_session w ev s x :
  sessions w !! s = Some x →
  subject w ev ≠ Some (this x) →
  sessions (handle w ev) !! s = Some x.
Proof.
  intros Hx Hsub.
  assert (∀ s0, subject w ev = this <$> sessions w !! s0 → s0 ≠ s) as Hne.
  { intros s0 E ->. apply Hsub. by rewrite E, Hx. }
  destruct ev; simpl.
  - unfold subscribe. destruct (clients w !! c); [|done].
    simpl. by apply lookup_app_l_Some.
  - unfold subscribe_resolved.
    destruct (sessions w !! s0) as [x0|] eqn:Hx0; [|done].
    destruct (phase x0); try done.
    rewrite update_session_other by (by apply Hne).
    by rewrite !update_client_sessions.
  - unfold subscribe_rejected.
    destruct (sessions w !! s0) as [x0|] eqn:Hx0; [|done].
    destruct (phase x0); try done.
    destruct (origin x0); rewrite ?call_opt_sessions;
      by rewrite update_session_other by (by apply Hne).
  - destruct (established w s0); [|done].
    unfold next. by rewrite update_session_other by (by apply Hne).
  - destruct (established w s0); [|done].
    unfold close. destruct (sessions w !! s0) as [x0|] eqn:Hx0; [|done].
    unfold client_close. rewrite update_session_other by (by apply Hne).
    by rewrite update_client_sessions.
  - destruct (established w s0); [|done]. by rewrite onopen_sessions.
  - destruct (established w s0); [|done]. by rewrite onclose_sessions.
  - destruct (established w s0); [|done]. by rewrite onerror_sessions.
  - by rewrite dispatch_notification_other by (by apply Hne).
  - by rewrite dispatch_error_sessions.
  - unfold reconnect_timer. destruct (timers w !! t) as [y|]; [|done].
    destruct (t_pending y); [|done].
    unfold subscribe. rewrite clearTimeout_clients.
    destruct (clients w !! t_this y); simpl; rewrite clearTimeout_sessions;
      [by apply lookup_app_l_Some|done].
Qed.

(** C9, as the code has it: the counter, the timer handle, the open flag
    and the explicitly-closed flag are fields of the client object, shared
    by all its [subscribe] calls.  An event that belongs to a call on one
    client object changes neither the fields of another client object, nor
    any session of a call made on another client object, nor (the timer
    handles being the objects' own) any timer set for another client
    object. *)
Theorem C9_state_per_client_object w ev c :
  subject w ev ≠ Some c →
  clients (step w ev) !! c = clients w !! c ∧
  (∀ s x, sessions w !! s = Some x → this x = c →
          sessions (step w ev) !! s = Some x) ∧
  (timers_owned w →
   ∀ t y, timers w !! t = Some y → t_this y = c →
          timers (step w ev) !! t = Some y).
Proof.
  intros Hsub. split; [|split].
  - change (clients (step w ev)) with (clients (handle w ev)).
    destruct (clients w !! c) as [o|] eqn:Ho.
    + destruct (handle_client w ev c o Ho) as (o' & Ho' & _ & Hframe & _).
      rewrite Ho'. f_equal. by apply Hframe.
    + apply lookup_ge_None. rewrite handle_clients_length.
      by apply lookup_ge_None.
  - intros s x Hx <-. by apply handle_other_session.
  - intros Hown t y Hy <-.
    change (timers (step w ev)) with (timers (handle w ev)).
    destruct (handle_timer w ev t y Hy) as (y' & Hy' & _ & Hkept).
    rewrite Hy'. f_equal. by apply Hkept.
Qed.

(** ** The retry budget *)

Lemma failed_calls_app (l l' : list (@Effect Data Metadata)) :
  failed_calls (l ++ l') = (failed_calls l + failed_calls l')%nat.
Proof.
  induction l as [|e l IH]; simpl; [done|]. destruct e; simpl; by rewrite ?IH.
Qed.

Lemma notification_listener_failed w s cb event :
  failed_calls (log (notification_listener w s cb event)) = failed_calls (log w).
Proof.
  unfold notification_listener. destruct (sessions w !! s) as [x|]; [|done].
  destruct (match filter (options x) with Some f => _ | None => _ end); [done|].
  assert (failed_calls (log (emit w [CallbackResult cb (result event)])) =
          failed_calls (log w)) as H.
  { simpl. rewrite failed_calls_app. simpl. lia. }
  destruct (once (options x)) as [[]|]; try done.
  by rewrite client_close_log.
Qed.

Lemma dispatch_notification_failed w s event :
  failed_calls (log (dispatch_notification w s event)) = failed_calls (log w).
Proof.
  unfold dispatch_notification. destruct (sessions w !! s) as [x|]; [|done].
  destruct (closed x); [done|].
  generalize (notificationListeners x). intros l. revert w.
  induction l as [|cb l IH]; intros w; simpl; [done|].
  by rewrite IH, notification_listener_failed.
Qed.

Lemma dispatch_error_failed w s (e : JSONRPCError) :
  failed_calls (log (dispatch_error w s e)) = failed_calls (log w).
Proof.
  unfold dispatch_error. destruct (sessions w !! s) as [x|]; [|done].
  destruct (closed x); [done|].
  destruct (dispatch_error_fold (errorListeners x) w e) as (-> & _).
  rewrite failed_calls_app.
  induction (errorListeners x) as [|cb l IH]; simpl in *; lia.
Qed.

(** A quiet event sets no timer and does not call [onFailed]. *)
Lemma quiet_step w ev :
  quiet ev = true →
  length (timers (handle w ev)) = length (timers w) ∧
  failed_calls (log (handle w ev)) = failed_calls (log w).
Proof.
  destruct ev; simpl; try done; intros _.
  - by rewrite subscribe_timers, subscribe_log.
  - rewrite subscribe_rejected_timers. split; [done|].
    unfold subscribe_rejected. destruct (sessions w !! s) as [x|]; [|done].
    destruct (phase x); try done.
    destruct (origin x) as [|f]; [by rewrite update_session_log|].
    rewrite call_opt_log, update_session_log, failed_calls_app.
    destruct f; simpl; lia.
  - destruct (established w s); [|done].
    unfold next. by rewrite update_session_timers, update_session_log.
  - destruct (established w s); [|done].
    unfold onerror. destruct (sessions w !! s) as [x|]; [|done].
    rewrite call_opt_timers, call_opt_log, update_client_timers, update_client_log.
    destruct (onError (options x)); simpl; rewrite !failed_calls_app; simpl;
      split; lia.
  - by rewrite dispatch_notification_timers, dispatch_notification_failed.
  - by rewrite dispatch_error_timers, dispatch_error_failed.
  - unfold reconnect_timer. destruct (timers w !! t) as [x|]; [|done].
    destruct (t_pending x); [|done].
    by rewrite subscribe_timers, subscribe_log, clearTimeout_length, clearTimeout_log.
Qed.

Lemma canKeepRetrying_number k count n :
  0 ≤ k → canKeepRetrying (RetriesNumber k) count n = (count <? k).
Proof.
  intros Hk. unfold canKeepRetrying.
  destruct (Z.ltb_spec k 0) as [|_]; [lia|done].
Qed.

Lemma budgeted_step w c k s ev : budgeted w c k s → budgeted (step w ev) c k s.
Proof.
  intros (x & id & r & Hx & Hthis & Hp & Hr & Hretries).
  destruct (handle_evolves w ev s x Hx) as (x' & Hx' & Ht & _ & _ & Huo & _ & Hph).
  exists x', id, r. repeat split; try done; [congruence|by apply Hph|].
  unfold options. rewrite Huo. exact Hr.
Qed.

Lemma budgeted_run evs : ∀ w c k s, budgeted w c k s → budgeted (run w evs) c k s.
Proof.
  induction evs as [|ev evs IH]; intros w c k s Hb; simpl; [done|].
  by apply IH, budgeted_step.
Qed.

(** A close of a budgeted session while the counter is below the bound. *)
Lemma budgeted_close_scheduled w c k s o :
  0 ≤ k →
  budgeted w c k s →
  clients w !! c = Some o →
  explicitlyClosed o = false →
  retriesCount o < k →
  clients (handle w (SocketClose s)) !! c =
    Some {| url := url o; isOpen := false; explicitlyClosed := false;
            retriesCount := retriesCount o + 1;
            reconnectTimer := Some (length (timers w)) |} ∧
  length (timers (handle w (SocketClose s))) = S (length (timers w)) ∧
  failed_calls (log (handle w (SocketClose s))) = failed_calls (log w).
Proof.
  intros Hk (x & id & r & Hx & Hthis & Hp & Hr & Hretries) Ho Hflag Hlt.
  assert (handle w (SocketClose s) = onclose w s) as ->.
  { simpl. by rewrite (established_true w s x id). }
  rewrite <- Hthis in Ho.
  destruct (onclose_scheduled w s x o Hx Ho r Hflag Hr) as (Hc & Hlen & _ & Hlog & _).
  { rewrite Hretries. change (default _ (Some ?y)) with y.
    rewrite canKeepRetrying_number by done. by apply Z.ltb_lt. }
  split; [|split; [done|]].
  - rewrite Hc, <- Hthis. apply list_lookup_insert_eq. by eapply lookup_lt_Some.
  - by rewrite Hlog.
Qed.

(** A close of a budgeted session with the counter at the bound. *)
Lemma budgeted_close_exhausted w c k s x r o :
  0 ≤ k →
  sessions w !! s = Some x →
  budgeted w c k s →
  reconnectSettings (options x) = Some r →
  clients w !! c = Some o →
  explicitlyClosed o = false →
  k ≤ retriesCount o →
  timers (handle w (SocketClose s)) = timers w ∧
  log (handle w (SocketClose s)) =
    log w ++ match onFailed r with Some cb => [OnFailed cb] | None => [] end.
Proof.
  intros Hk Hx (x1 & id & r1 & Hx1 & Hthis & Hp & Hr1 & Hretries) Hr Ho Hflag Hge.
  assert (x1 = x) as -> by congruence.
  assert (r1 = r) as -> by congruence.
  assert (handle w (SocketClose s) = onclose w s) as ->.
  { simpl. by rewrite (established_true w s x id). }
  rewrite <- Hthis in Ho.
  rewrite (onclose_exhausted w s x o Hx Ho r Hflag Hr).
  2:{ rewrite Hretries. change (default _ (Some ?y)) with y.
      rewrite canKeepRetrying_number by done. by apply Z.ltb_ge. }
  rewrite call_opt_timers, call_opt_log, update_client_timers, update_client_log.
  by destruct (onFailed r).
Qed.

(** While the counter stays within the bound [k], every close of one of
    the sessions [ss] of the client object [c] sets a timer and raises the
    counter, and [onFailed] is not called; the events in between are
    quiet. *)
Lemma budget_prefix c k ss evs : ∀ w o,
  0 ≤ k →
  clients w !! c = Some o →
  explicitlyClosed o = false →
  Forall (budgeted w c k) ss →
  Forall (λ ev, is_close_of ss ev = true ∨ quiet ev = true) evs →
  retriesCount o + Z.of_nat (closes_of ss evs) ≤ k →
  ∃ o', clients (run w evs) !! c = Some o' ∧
        explicitlyClosed o' = false ∧
        retriesCount o' = retriesCount o + Z.of_nat (closes_of ss evs) ∧
        length (timers (run w evs)) = (length (timers w) + closes_of ss evs)%nat ∧
        failed_calls (log (run w evs)) = failed_calls (log w).
Proof.
  induction evs as [|ev evs IH]; intros w o Hk Ho Hflag Hss Hevs Hle; simpl.
  { exists o. repeat split; try done; lia. }
  inversion Hevs as [|? ? Hev Hrest]; subst.
  assert (Forall (budgeted (step w ev) c k) ss) as Hss'.
  { eapply Forall_impl; [exact Hss|]. intros s. apply budgeted_step. }
  simpl in Hle.
  destruct (is_close_of ss ev) eqn:Hclose.
  - destruct ev as [| | | | | |s| | | |]; try done. simpl in Hclose.
    apply bool_decide_eq_true in Hclose.
    rewrite Forall_forall in Hss.
    destruct (budgeted_close_scheduled w c k s o Hk (Hss s Hclose) Ho Hflag)
      as (Hc & Hlen & Hfail); [lia|].
    destruct (IH (step w (SocketClose s)) _ Hk Hc eq_refl Hss' Hrest)
      as (o' & Ho' & Hflag' & Hcount' & Hlen' & Hfail').
    { cbn [retriesCount]. lia. }
    exists o'. split; [done|]. split; [done|].
    cbn [retriesCount] in Hcount'.
    change (timers (step w (SocketClose s)))
      with (timers (handle w (SocketClose s))) in Hlen'.
    change (log (step w (SocketClose s)))
      with (log (handle w (SocketClose s))) in Hfail'.
    rewrite Hcount', Hlen', Hfail', Hlen, Hfail. repeat split; lia.
  - destruct Hev as [?|Hq]; [done|].
    destruct (quiet_step w ev Hq) as (Hlen & Hfail).
    destruct (handle_client w ev c o Ho) as (o1 & Ho1 & _ & _ & _ & Hkeep & _).
    destruct (Hkeep Hq) as (Hf1 & Hc1 & _).
    destruct (IH (step w ev) o1 Hk Ho1) as (o' & Ho' & Hflag' & Hcount' & Hlen' & Hfail');
      [congruence|done|done|lia|].
    exists o'. split; [done|]. split; [done|].
    change (timers (step w ev)) with (timers (handle w ev)) in Hlen'.
    change (log (step w ev)) with (log (handle w ev)) in Hfail'.
    rewrite Hcount', Hlen', Hfail', Hlen, Hfail, Hc1. repeat split; lia.
Qed.

(** C3, as the code has it: with [retries] a number [k ≥ 0] the close
    handler permits a reconnect exactly while the counter of the client
    object is below [k].  The counter belongs to the client object, not to
    a socket, and every completed handshake and every open event of an
    established session on the object sets it back to 0; so the budget
    bounds the closes that no handshake separates, which are closes of
    several sessions of one object (a session that reconnects completes a
    handshake first).  Starting with the counter at 0, of the close events
    of established sessions of one client object that all have the bound
    [k], with only quiet events in between, the first [k] each set a
    reconnect timer and none calls [onFailed]; the next one sets no timer
    and calls the [onFailed] of its own session (when there is one); and
    after a reset the next close sets a timer again (when [k > 0]). *)
Theorem C3_retry_budget w c o k ss evs :
  0 ≤ k →
  clients w !! c = Some o →
  explicitlyClosed o = false →
  retriesCount o = 0 →
  Forall (budgeted w c k) ss →
  Forall (λ ev, is_close_of ss ev = true ∨ quiet ev = true) evs →
  closes_of ss evs = Z.to_nat k →
  let w1 := run w evs in
  (∀ count n, canKeepRetrying (RetriesNumber k) count n = true ↔ count < k) ∧
  length (timers w1) = (length (timers w) + Z.to_nat k)%nat ∧
  failed_calls (log w1) = failed_calls (log w) ∧
  retriesCount <$> clients w1 !! c = Some k ∧
  (∀ s x r, s ∈ ss → sessions w1 !! s = Some x →
     reconnectSettings (options x) = Some r →
     timers (step w1 (SocketClose s)) = timers w1 ∧
     log (step w1 (SocketClose s)) =
       log w1 ++ match onFailed r with Some cb => [OnFailed cb] | None => [] end) ∧
  (∀ s' x' id', sessions w1 !! s' = Some x' → this x' = c →
     phase x' = Connecting →
     retriesCount <$> clients (step w1 (RequestResolved s' id')) !! c = Some 0) ∧
  (∀ s' x' id', sessions w1 !! s' = Some x' → this x' = c →
     phase x' = Established id' →
     retriesCount <$> clients (step w1 (SocketOpen s')) !! c = Some 0 ∧
     (0 < k → ∀ s, s ∈ ss →
      length (timers (run w1 [SocketOpen s'; SocketClose s])) =
        S (length (timers w1)))).
Proof.
  intros Hk Ho Hflag Hcount Hss Hevs Hn w1.
  destruct (budget_prefix c k ss evs w o Hk Ho Hflag Hss Hevs)
    as (o1 & Ho1 & Hflag1 & Hcount1 & Hlen1 & Hfail1); [lia|].
  fold w1 in Ho1, Hlen1, Hfail1.
  assert (retriesCount o1 = k) as Hk1 by lia.
  assert (Forall (budgeted w1 c k) ss) as Hss1.
  { eapply Forall_impl; [exact Hss|]. intros s. apply budgeted_run. }
  rewrite Forall_forall in Hss1.
  split; [|split; [|split; [|split; [|split; [|split]]]]].
  - intros count n. rewrite canKeepRetrying_number by done. apply Z.ltb_lt.
  - rewrite Hlen1, Hn. done.
  - done.
  - by rewrite Ho1, <- Hk1.
  - intros s x r Hs Hx Hr.
    apply (budgeted_close_exhausted w1 c k s x r o1); try done; [by apply Hss1|lia].
  - intros s' x' id' Hx' Hthis Hp. simpl. unfold subscribe_resolved.
    rewrite Hx', Hp, update_session_clients, !update_client_lookup.
    by rewrite Hthis, !decide_True, Ho1.
  - intros s' x' id' Hx' Hthis Hp.
    assert (handle w1 (SocketOpen s') = onopen w1 s') as Hopen.
    { simpl. by rewrite (established_true w1 s' x' id'). }
    assert (clients (step w1 (SocketOpen s')) !! c =
              Some (with_retriesCount 0 (with_isOpen true o1))) as Hc2.
    { change (clients (step w1 (SocketOpen s')))
        with (clients (handle w1 (SocketOpen s'))).
      rewrite Hopen. unfold onopen. rewrite Hx', Hthis.
      by rewrite !update_client_lookup, !decide_True, Ho1. }
    split; [by rewrite Hc2|].
    intros Hpos s Hs.
    change (run w1 [SocketOpen s'; SocketClose s])
      with (step (step w1 (SocketOpen s')) (SocketClose s)).
    destruct (budgeted_close_scheduled (step w1 (SocketOpen s')) c k s _ Hk
                (budgeted_step w1 c k s (SocketOpen s') (Hss1 s Hs)) Hc2)
      as (_ & Hlen & _); [done|simpl; lia|].
    change (timers (step (step w1 (SocketOpen s')) (SocketClose s)))
      with (timers (handle (step w1 (SocketOpen s')) (SocketClose s))).
    rewrite Hlen.
    change (timers (step w1 (SocketOpen s')))
      with (timers (handle w1 (SocketOpen s'))).
    by rewrite Hopen, onopen_timers.
Qed.

(** ** What a reconnect does *)

Lemma reconnect_timer_pending w t y o :
  timers w !! t = Some y →
  t_pending y = true →
  clients w !! t_this y = Some o →
  sessions (reconnect_timer w t) =
    sessions w ++
    [{| this := t_this y; transport_url := URL_toString (url o);
        request := t_request y; userOptions := t_userOptions y;
        origin := ByReconnect (t_onError y); phase := Connecting;
        errorListeners := []; notificationListeners := []; closed := false |}].
Proof.
  intros Ht Hp Ho. unfold reconnect_timer. rewrite Ht, Hp.
  unfold subscribe. rewrite clearTimeout_clients, Ho. simpl.
  by rewrite clearTimeout_sessions.
Qed.

(** *** The [Subscription] that nobody holds *)

Lemma update_session_unheld w s0 f s x :
  (∀ x0, sessions w !! s0 = Some x0 → s0 = s → unheld x0 → unheld (f x0)) →
  sessions w !! s = Some x →
  unheld x →
  ∃ x', sessions (update_session w s0 f) !! s = Some x' ∧ unheld x'.
Proof.
  intros Hf Hx Hu. rewrite update_session_lookup, Hx. simpl.
  case_decide as Hs; [|eauto]. subst s0.
  eexists; split; [done|]. by apply Hf.
Qed.

Lemma unheld_with_phase p x : unheld x → unheld (with_phase p x).
Proof. by intros (? & ? & ?). Qed.

Lemma unheld_closed_client x : unheld x → unheld (closed_client x).
Proof. by intros (? & ? & ?). Qed.

Lemma notification_listener_unheld w s0 cb event s x :
  sessions w !! s = Some x →
  unheld x →
  ∃ x', sessions (notification_listener w s0 cb event) !! s = Some x' ∧ unheld x'.
Proof.
  intros Hx Hu. unfold notification_listener.
  destruct (sessions w !! s0) as [x0|]; [|eauto].
  destruct (match filter (options x0) with Some f => _ | None => _ end); [eauto|].
  destruct (once (options x0)) as [[]|]; eauto.
  apply (update_session_unheld (emit w _) _ _ s x); [|done..].
  intros. by apply unheld_closed_client.
Qed.

Lemma dispatch_notification_unheld w s0 event s x :
  sessions w !! s = Some x →
  unheld x →
  ∃ x', sessions (dispatch_notification w s0 event) !! s = Some x' ∧ unheld x'.
Proof.
  unfold dispatch_notification.
  destruct (sessions w !! s0) as [x0|]; [|eauto].
  destruct (closed x0); [eauto|].
  generalize (notificationListeners x0). intros l. revert w x.
  induction l as [|cb l IH]; intros w x Hx Hu; simpl; [eauto|].
  destruct (notification_listener_unheld w s0 cb event s x Hx Hu) as (x1 & Hx1 & Hu1).
  eauto.
Qed.

(** A session that a reconnect timer made has no listener as long as the
    caller calls [next] and [close] on its own [Subscription] objects. *)
Lemma handle_unheld w ev s x :
  sessions w !! s = Some x →
  unheld x →
  own_call w ev = true →
  ∃ x', sessions (handle w ev) !! s = Some x' ∧ unheld x'.
Proof.
  intros Hx Hu Hown.
  assert (∀ w', sessions w' = sessions w →
    ∃ x', sessions w' !! s = Some x' ∧ unheld x') as Hsame.
  { intros w' ->. eauto. }
  assert (∀ s0, own_call w (CallNext s0 0%nat) = true → s0 ≠ s) as Hother.
  { intros s0 Hs0 ->. simpl in Hs0. rewrite Hx in Hs0.
    destruct Hu as ((f & Hf) & _). by rewrite Hf in Hs0. }
  destruct ev as [c req uo|s0 id|s0|s0 cb|s0|s0|s0|s0 msg|s0 m|s0 e|t]; simpl.
  - unfold subscribe. destruct (clients w !! c); [|eauto].
    simpl. exists x. split; [by apply lookup_app_l_Some|done].
  - unfold subscribe_resolved.
    destruct (sessions w !! s0) as [x0|] eqn:Hx0; [|eauto].
    destruct (phase x0) eqn:Hp0; eauto.
    apply (update_session_unheld _ _ _ s x);
      [|by rewrite !update_client_sessions|done].
    intros. by apply unheld_with_phase.
  - unfold subscribe_rejected.
    destruct (sessions w !! s0) as [x0|] eqn:Hx0; [|eauto].
    destruct (phase x0) eqn:Hp0; eauto.
    assert (∃ x', sessions (update_session w s0 (with_phase Rejected)) !! s = Some x' ∧
                  unheld x') as Hup.
    { apply (update_session_unheld _ _ _ s x); [|done..].
      intros. by apply unheld_with_phase. }
    destruct (origin x0); [done|]. by rewrite call_opt_sessions.
  - destruct (established w s0); [|eauto].
    unfold next. rewrite update_session_lookup, decide_False, Hx by (by apply Hother).
    eauto.
  - destruct (established w s0); [|eauto].
    unfold close. destruct (sessions w !! s0) as [x0|]; [|eauto].
    unfold client_close.
    rewrite update_session_lookup, decide_False, update_client_sessions, Hx
      by (by apply Hother).
    eauto.
  - destruct (established w s0); [|eauto]. apply Hsame, onopen_sessions.
  - destruct (established w s0); [|eauto]. apply Hsame, onclose_sessions.
  - destruct (established w s0); [|eauto]. apply Hsame, onerror_sessions.
  - by apply (dispatch_notification_unheld w s0 m s x).
  - apply Hsame, dispatch_error_sessions.
  - unfold reconnect_timer. destruct (timers w !! t) as [y|]; [|eauto].
    destruct (t_pending y); [|eauto].
    unfold subscribe. rewrite clearTimeout_clients.
    destruct (clients w !! t_this y); simpl; rewrite clearTimeout_sessions; [|eauto].
    exists x. split; [by apply lookup_app_l_Some|done].
Qed.

Lemma run_unheld evs : ∀ w s x,
  sessions w !! s = Some x →
  unheld x →
  callers_own w evs = true →
  ∃ x', sessions (run w evs) !! s = Some x' ∧ unheld x'.
Proof.
  induction evs as [|ev evs IH]; intros w s x Hx Hu Hown; simpl in *; [eauto|].
  apply andb_prop in Hown as [Hev Hrest].
  destruct (handle_unheld w ev s x Hx Hu Hev) as (x1 & Hx1 & Hu1).
  by apply (IH (step w ev) s x1).
Qed.

(** C2, as the code has it: the reconnect timer calls [subscribe] with the
    request and the options of the call whose socket closed, verbatim, on
    the same client object and URL, and the [Subscription] object of that
    new call is dropped: nobody can call its [next], so the new session
    never has a listener and no notification of the new transport reaches
    a callback, those given to the original [next] included.  The original
    [Subscription] object goes on reporting the subscription id of its own
    handshake, not the id of the new one, whatever happens later; its
    [next] and [close] act on the JSON-RPC client of its own call and leave
    the new session as it is, open and with the new id.  What [close]
    does reach is the explicitly-closed flag, which the two calls share
    through the client object: after it a close of the new socket sets no
    reconnect timer, where without it (the policy permitting) it sets
    one. *)
Theorem C2_reconnect_keeps_arguments w s x o r id id1 evs cb m :
  sessions w !! s = Some x →
  phase x = Established id →
  clients w !! this x = Some o →
  explicitlyClosed o = false →
  reconnectSettings (options x) = Some r →
  canKeepRetrying (default (RetriesNumber (-1)) (retries r))
    (retriesCount o) (now w) = true →
  let s1 := length (sessions w) in
  let new :=
    {| this := this x; transport_url := URL_toString (url o);
       request := request x; userOptions := userOptions x;
       origin := ByReconnect (onError (options x)); phase := Connecting;
       errorListeners := []; notificationListeners := []; closed := false |} in
  let w1 := run w [SocketClose s; TimerFired (length (timers w))] in
  let w2 := step w1 (RequestResolved s1 id1) in
  sessions w1 = sessions w ++ [new] ∧
  sessions w2 = sessions w ++ [with_phase (Established id1) new] ∧
  getSubscriptionId w2 s1 = Some id1 ∧
  getSubscriptionId w2 s = Some id ∧
  getSubscriptionId (run w2 evs) s = Some id ∧
  (sessions (handle w2 (CallNext s cb)) !! s = Some (add_listeners cb x) ∧
   sessions (handle w2 (CallNext s cb)) !! s1 = sessions w2 !! s1 ∧
   handle (handle w2 (CallNext s cb)) (Notification s1 m) =
     handle w2 (CallNext s cb)) ∧
  (sessions (handle w2 (CallClose s)) !! s = Some (closed_client x) ∧
   sessions (handle w2 (CallClose s)) !! s1 = sessions w2 !! s1 ∧
   explicitlyClosed <$> clients w2 !! this x = Some false ∧
   explicitlyClosed <$> clients (handle w2 (CallClose s)) !! this x = Some true ∧
   (canKeepRetrying (default (RetriesNumber (-1)) (retries r)) 0 (now w2) = true →
    length (timers (step w2 (SocketClose s1))) = S (length (timers w2))) ∧
   timers (run w2 [CallClose s; SocketClose s1]) = timers w2) ∧
  (callers_own w2 evs = true →
   ∃ x1, sessions (run w2 evs) !! s1 = Some x1 ∧
         notificationListeners x1 = [] ∧ errorListeners x1 = [] ∧
         handle (run w2 evs) (Notification s1 m) = run w2 evs).
Proof.
  intros Hx Hp Ho Hflag Hr Hk s1 new w1 w2.
  assert (established w s = true) as Hest by (by eapply established_true).
  destruct (onclose_scheduled w s x o Hx Ho r Hflag Hr Hk)
    as (Hc & Hlen & Ht & _ & Hs).
  assert (handle w (SocketClose s) = onclose w s) as Hh
    by (simpl; by rewrite Hest).
  assert (s < s1)%nat as Hlt by (by eapply lookup_lt_Some).
  set (o1 := {| url := url o; isOpen := false; explicitlyClosed := false;
                retriesCount := retriesCount o + 1;
                reconnectTimer := Some (length (timers w)) |}) in *.
  assert (clients (onclose w s) !! this x = Some o1) as Ho1.
  { rewrite Hc. apply list_lookup_insert_eq. by eapply lookup_lt_Some. }
  assert (sessions w1 = sessions w ++ [new]) as Hs1.
  { unfold w1, run. cbn [foldl]. unfold step. rewrite Hh. cbn [handle].
    change (sessions (tick ?w')) with (sessions w').
    rewrite (reconnect_timer_pending (tick (onclose w s)) _ _ o1 Ht eq_refl Ho1).
    simpl. by rewrite Hs. }
  assert (clients w1 = clients (onclose w s)) as Hc1.
  { unfold w1, run. cbn [foldl]. unfold step. rewrite Hh. cbn [handle].
    change (clients (tick ?w')) with (clients w').
    by rewrite reconnect_timer_clients. }
  clearbody w1.
  assert (sessions w1 !! s1 = Some new) as Hnew1.
  { rewrite Hs1. unfold s1. rewrite lookup_app_r by done.
    by rewrite Nat.sub_diag. }
  assert (handle w1 (RequestResolved s1 id1) =
            update_session
              (update_client
                 (update_client w1 (this x) (with_explicitlyClosed false))
                 (this x) (with_retriesCount 0))
              s1 (with_phase (Established id1))) as Hh2.
  { simpl. unfold subscribe_resolved. by rewrite Hnew1. }
  assert (sessions w2 = sessions w ++ [with_phase (Established id1) new]) as Hs2.
  { unfold w2, step. rewrite Hh2.
    change (sessions (tick ?w')) with (sessions w').
    unfold update_session. rewrite !update_client_sessions, Hnew1. simpl.
    rewrite ?update_client_sessions, Hs1. unfold s1.
    rewrite insert_app_r_alt by done. by rewrite Nat.sub_diag. }
  set (o2 := with_retriesCount 0 (with_explicitlyClosed false o1)) in *.
  assert (clients w2 !! this x = Some o2) as Ho2.
  { unfold w2, step. rewrite Hh2.
    change (clients (tick ?w')) with (clients w').
    rewrite update_session_clients, !update_client_lookup, !decide_True by done.
    by rewrite Hc1, Ho1. }
  assert (sessions w2 !! s = Some x) as Hx2.
  { rewrite Hs2. by apply lookup_app_l_Some. }
  assert (sessions w2 !! s1 = Some (with_phase (Established id1) new)) as Hnew2.
  { rewrite Hs2. unfold s1. rewrite lookup_app_r by done.
    by rewrite Nat.sub_diag. }
  assert (s1 ≠ s) as Hne by lia.
  assert (established w2 s = true) as Hest2 by (by eapply established_true).
  assert (unheld (with_phase (Established id1) new)) as Hu2.
  { split; [by eexists|done]. }
  assert (∀ w' x1, sessions w' !! s1 = Some x1 → unheld x1 →
            handle w' (Notification s1 m) = w') as Hnone.
  { intros w' x1 Hx1 (_ & Hn & _). simpl. unfold dispatch_notification.
    rewrite Hx1, Hn. by destruct (closed x1). }
  split; [done|]. split; [done|].
  split; [unfold getSubscriptionId; by rewrite Hnew2|].
  split; [unfold getSubscriptionId; by rewrite Hx2, Hp|].
  split.
  { apply getSubscriptionId_stable. unfold getSubscriptionId. by rewrite Hx2, Hp. }
  split; [|split].
  - assert (handle w2 (CallNext s cb) = next w2 s cb) as ->
      by (simpl; by rewrite Hest2).
    assert (sessions (next w2 s cb) !! s1 = sessions w2 !! s1) as Hsame.
    { unfold next. rewrite update_session_lookup, decide_False by done.
      by destruct (sessions w2 !! s1). }
    split; [|split; [done|]].
    + unfold next. by rewrite update_session_lookup, decide_True, Hx2.
    + apply (Hnone _ (with_phase (Established id1) new)); [|done].
      by rewrite Hsame.
  - assert (handle w2 (CallClose s) =
              update_session (update_client w2 (this x) (with_explicitlyClosed true))
                s closed_client) as Hcl.
    { simpl. rewrite Hest2. unfold close. by rewrite Hx2. }
    assert (sessions (handle w2 (CallClose s)) !! s1 = sessions w2 !! s1) as Hsame.
    { rewrite Hcl, update_session_lookup, decide_False, update_client_sessions by done.
      by destruct (sessions w2 !! s1). }
    assert (clients (handle w2 (CallClose s)) !! this x =
              Some (with_explicitlyClosed true o2)) as Ho3.
    { by rewrite Hcl, update_session_clients, update_client_lookup, decide_True, Ho2. }
    split; [|split; [done|split; [by rewrite Ho2|split; [by rewrite Ho3|split]]]].
    + by rewrite Hcl, update_session_lookup, decide_True, update_client_sessions, Hx2.
    + intros Hk2.
      change (timers (step w2 (SocketClose s1)))
        with (timers (handle w2 (SocketClose s1))).
      assert (handle w2 (SocketClose s1) = onclose w2 s1) as ->.
      { simpl. by rewrite (established_true w2 s1 _ id1 Hnew2). }
      by destruct (onclose_scheduled w2 s1 _ o2 Hnew2 Ho2 r eq_refl Hr Hk2)
        as (_ & Hl & _).
    + change (run w2 [CallClose s; SocketClose s1])
        with (step (step w2 (CallClose s)) (SocketClose s1)).
      set (w3 := step w2 (CallClose s)).
      change (timers (step w3 (SocketClose s1)))
        with (timers (handle w3 (SocketClose s1))).
      assert (sessions w3 !! s1 = Some (with_phase (Established id1) new)) as Hnew3.
      { unfold w3, step. change (sessions (tick ?w')) with (sessions w').
        by rewrite Hsame. }
      assert (handle w3 (SocketClose s1) = onclose w3 s1) as ->.
      { simpl. by rewrite (established_true w3 s1 _ id1 Hnew3). }
      rewrite (onclose_explicit w3 s1 _ (with_explicitlyClosed true o2) Hnew3);
        [|exact Ho3|done].
      rewrite update_client_timers. unfold w3, step.
      change (timers (tick ?w')) with (timers w').
      by rewrite Hcl, update_session_timers, update_client_timers.
  - intros Hown.
    destruct (run_unheld evs w2 s1 _ Hnew2 Hu2 Hown) as (x1 & Hx1 & Hu1).
    exists x1. split; [done|]. pose proof Hu1 as (_ & Hn & He).
    split; [done|]. split; [done|]. by eapply Hnone.
Qed.

(** ** One pending timer for each client object *)

Lemma handle_timers_same w ev :
  closing ev = false → firing ev = false → timers (handle w ev) = timers w.
Proof.
  destruct ev; simpl; try done; intros _ _.
  - apply subscribe_timers.
  - apply subscribe_resolved_timers.
  - apply subscribe_rejected_timers.
  - destruct (established w s); [|done]. apply update_session_timers.
  - destruct (established w s); [|done]. apply close_timers.
  - destruct (established w s); [|done]. apply onopen_timers.
  - destruct (established w s); [|done]. apply onerror_timers.
  - apply dispatch_notification_timers.
  - apply dispatch_error_timers.
Qed.

Lemma clearReconnectTimer_timer_exact w c o t y :
  clients w !! c = Some o →
  timers w !! t = Some y →
  timers (clearReconnectTimer w c) !! t =
    Some (if decide (reconnectTimer o = Some t) then cleared y else y).
Proof.
  intros Ho Hy. unfold clearReconnectTimer. rewrite Ho.
  destruct (reconnectTimer o) as [t0|] eqn:Ht0.
  - rewrite update_client_timers, clearTimeout_lookup, Hy. simpl.
    destruct (decide (t0 = t)) as [->|Hne].
    + by rewrite decide_True.
    + rewrite decide_False; [done|congruence].
  - by rewrite Hy, decide_False.
Qed.

(** The timers that were there when the close handler sets a new one: the
    one the client object remembered is cleared, the others stay. *)
Lemma onclose_scheduled_timer w s x o r t y :
  sessions w !! s = Some x →
  clients w !! this x = Some o →
  explicitlyClosed o = false →
  reconnectSettings (options x) = Some r →
  canKeepRetrying (default (RetriesNumber (-1)) (retries r))
    (retriesCount o) (now w) = true →
  timers w !! t = Some y →
  timers (onclose w s) !! t =
    Some (if decide (reconnectTimer o = Some t) then cleared y else y).
Proof.
  intros Hx Ho Hflag Hr Hk Hy.
  unfold onclose. rewrite Hx. simpl.
  rewrite update_client_lookup, decide_True, Ho by done. simpl.
  rewrite Hflag, Hr. unfold reconnect. simpl.
  rewrite update_client_now, Hk. simpl.
  rewrite update_client_timers. simpl.
  set (w2 := update_client (update_client w _ _) _ _).
  assert (timers w2 !! t = Some y) as Hy2
    by (unfold w2; by rewrite !update_client_timers).
  assert (∃ o2, clients w2 !! this x = Some o2 ∧
                reconnectTimer o2 = reconnectTimer o) as (o2 & Ho2 & Hrt).
  { unfold w2. rewrite !update_client_lookup, !decide_True, Ho by done.
    simpl. eauto. }
  rewrite (lookup_app_l_Some _ _ _ _
    (clearReconnectTimer_timer_exact w2 (this x) o2 t y Ho2 Hy2)).
  by rewrite Hrt.
Qed.

Lemma step_pending_remembered w ev :
  pending_remembered w → pending_remembered (step w ev).
Proof.
  intros Hinv t y' Hy' Hp.
  change (timers (step w ev)) with (timers (handle w ev)) in Hy'.
  change (clients (step w ev)) with (clients (handle w ev)).
  assert (∀ y, timers w !! t = Some y → t_pending y = true →
            t_this y = t_this y' → closing ev = false →
            ∃ o', clients (handle w ev) !! t_this y' = Some o' ∧
                  reconnectTimer o' = Some t) as Hquiet.
  { intros y Hy Hpy Hthis Hev. destruct (Hinv t y Hy Hpy) as (o & Ho & Hrt).
    rewrite Hthis in Ho.
    destruct (handle_client w ev _ o Ho) as (o' & Ho' & _ & _ & _ & _ & Hkeep).
    exists o'. split; [done|]. by rewrite Hkeep. }
  destruct (closing ev) eqn:Hclosing; [|destruct (firing ev) eqn:Hfiring].
  - destruct ev as [| | | | | |s| | | |]; try done.
    assert (handle w (SocketClose s) = w ∨
            ∃ x, sessions w !! s = Some x ∧ handle w (SocketClose s) = onclose w s)
      as [Hh|(x & Hx & Hh)].
    { simpl. destruct (established w s) eqn:He; [|by left]. right.
      destruct (established_lookup w s He) as (x & id & Hx & _). eauto. }
    { rewrite Hh in *. by apply Hinv. }
    rewrite Hh in *.
    destruct (clients w !! this x) as [o|] eqn:Ho.
    2:{ assert (onclose w s = update_client w (this x) (with_isOpen false)) as Hn.
        { unfold onclose. rewrite Hx. simpl.
          by rewrite update_client_lookup, decide_True, Ho by done. }
        rewrite Hn, update_client_timers in Hy'.
        destruct (Hinv t y' Hy' Hp) as (o1 & Ho1 & Hrt).
        rewrite Hn, update_client_lookup, Ho1. simpl.
        case_decide as Hc; [congruence|eauto]. }
    assert (∀ f, onclose w s = f (update_client w (this x) (with_isOpen false)) →
              (∀ w0, timers (f w0) = timers w0) →
              (∀ w0, clients (f w0) = clients w0) →
              ∃ o', clients (onclose w s) !! t_this y' = Some o' ∧
                    reconnectTimer o' = Some t) as Hplain.
    { intros f Hf Hft Hfc. rewrite Hf, Hft, update_client_timers in Hy'.
      destruct (Hinv t y' Hy' Hp) as (o1 & Ho1 & Hrt).
      rewrite Hf, Hfc, update_client_lookup, Ho1. simpl.
      case_decide; eauto. }
    destruct (explicitlyClosed o) eqn:Hflag.
    { apply (Hplain id); [by apply (onclose_explicit w s x o)|done|done]. }
    destruct (reconnectSettings (options x)) as [r|] eqn:Hr.
    2:{ eapply (Hplain (λ w0, call_opt w0 _ _));
          [by apply (onclose_no_reconnect w s x o)|..]; intros;
          [apply call_opt_timers|apply call_opt_clients]. }
    destruct (canKeepRetrying (default (RetriesNumber (-1)) (retries r))
                (retriesCount o) (now w)) eqn:Hk.
    2:{ eapply (Hplain (λ w0, call_opt w0 _ _));
          [by apply (onclose_exhausted w s x o Hx Ho r)|..]; intros;
          [apply call_opt_timers|apply call_opt_clients]. }
    destruct (onclose_scheduled w s x o Hx Ho r Hflag Hr Hk)
      as (Hc & Hlen & Hnew & _).
    rewrite Hc.
    destruct (decide (t < length (timers w))%nat) as [Hlt|Hge].
    + destruct (lookup_lt_is_Some_2 (timers w) t Hlt) as [y Hy].
      rewrite (onclose_scheduled_timer w s x o r t y) in Hy' by done.
      injection Hy' as <-.
      case_decide as Hrem; [done|].
      destruct (Hinv t y Hy Hp) as (o1 & Ho1 & Hrt).
      destruct (decide (this x = t_this y)) as [He|Hne]; [congruence|].
      rewrite list_lookup_insert_ne by done. eauto.
    + assert (t = length (timers w)) as ->.
      { apply lookup_lt_Some in Hy'. lia. }
      rewrite Hnew in Hy'. injection Hy' as <-. simpl.
      rewrite list_lookup_insert_eq by (by eapply lookup_lt_Some). eauto.
  - destruct ev as [| | | | | | | | | |t0]; try done.
    simpl in Hy' |- *. rewrite reconnect_timer_clients.
    unfold reconnect_timer in Hy'.
    destruct (timers w !! t0) as [y0|] eqn:Hy0; [|by apply Hinv].
    destruct (t_pending y0); [|by apply Hinv].
    rewrite subscribe_timers, clearTimeout_lookup in Hy'.
    destruct (timers w !! t) as [y|] eqn:Hy; [|done]. simpl in Hy'.
    injection Hy' as <-. case_decide as Ht; [done|]. by apply (Hinv t y).
  - rewrite handle_timers_same in Hy' by done. by eapply Hquiet.
Qed.

Lemma run_pending_remembered evs : ∀ w,
  pending_remembered w → pending_remembered (run w evs).
Proof.
  induction evs as [|ev evs IH]; intros w Hinv; simpl; [done|].
  by apply IH, step_pending_remembered.
Qed.

(** X1: the close handler clears the timer the client object remembers
    before it sets a new one, so a client object never has two reconnect
    timers waiting: in a world reached from freshly constructed client
    objects, a pending timer is the one its client object remembers, and
    two pending timers of one client object are the same timer. *)
Theorem X1_one_pending_timer (cs : list WebSocketClient) evs t1 t2 y1 y2 :
  let w : World := run (start cs) evs in
  timers w !! t1 = Some y1 → t_pending y1 = true →
  timers w !! t2 = Some y2 → t_pending y2 = true →
  t_this y1 = t_this y2 →
  (∃ o, clients w !! t_this y1 = Some o ∧ reconnectTimer o = Some t1) ∧
  t1 = t2.
Proof.
  intros w H1 Hp1 H2 Hp2 Hthis.
  assert (pending_remembered w) as Hinv.
  { apply run_pending_remembered. intros t y Hy. by simpl in Hy. }
  destruct (Hinv t1 y1 H1 Hp1) as (o1 & Ho1 & Hr1).
  destruct (Hinv t2 y2 H2 Hp2) as (o2 & Ho2 & Hr2).
  split; [eauto|]. rewrite Hthis in Ho1. congruence.
Qed.

(** ** The URL of the constructor and the transports *)





(** ** A rejected handshake *)

Lemma still_refl x : still x x.
Proof. by split. Qed.

Lemma still_trans x y z : still x y → still y z → still x z.
Proof.
  intros [Hp1 Hl1] [Hp2 Hl2]. split; [congruence|].
  intros Hne Hl. apply Hl2; [|by apply Hl1]. intros id. rewrite Hp1. apply Hne.
Qed.

Lemma update_session_still w s0 f s x :
  (∀ x0, sessions w !! s0 = Some x0 → s0 = s → still x0 (f x0)) →
  sessions w !! s = Some x →
  ∃ x', sessions (update_session w s0 f) !! s = Some x' ∧ still x x'.
Proof.
  intros Hf Hx. rewrite update_session_lookup, Hx. simpl.
  case_decide as Hs; [|eauto using still_refl]. subst s0.
  eexists; split; [done|]. by apply Hf.
Qed.

Lemma still_closed_client x : still x (closed_client x).
Proof. by split. Qed.

Lemma notification_listener_still w s0 cb event s x :
  sessions w !! s = Some x →
  ∃ x', sessions (notification_listener w s0 cb event) !! s = Some x' ∧
        still x x'.
Proof.
  intros Hx. unfold notification_listener.
  destruct (sessions w !! s0) as [x0|]; [|eauto using still_refl].
  destruct (match filter (options x0) with Some f => _ | None => _ end);
    [eauto using still_refl|].
  destruct (once (options x0)) as [[]|]; eauto using still_refl.
  apply (update_session_still (emit w _)); [|done].
  intros. apply still_closed_client.
Qed.

Lemma dispatch_notification_still w s0 event s x :
  sessions w !! s = Some x →
  ∃ x', sessions (dispatch_notification w s0 event) !! s = Some x' ∧
        still x x'.
Proof.
  unfold dispatch_notification.
  destruct (sessions w !! s0) as [x0|]; [|eauto using still_refl].
  destruct (closed x0); [eauto using still_refl|].
  generalize (notificationListeners x0). intros l. revert w x.
  induction l as [|cb l IH]; intros w x Hx; simpl; [eauto using still_refl|].
  destruct (notification_listener_still w s0 cb event s x Hx) as (x1 & Hx1 & Hp1).
  destruct (IH _ x1 Hx1) as (x2 & Hx2 & Hp2). eauto using still_trans.
Qed.

(** A session whose handshake is over keeps its phase. *)
Lemma handle_still w ev s x :
  sessions w !! s = Some x →
  phase x ≠ Connecting →
  ∃ x', sessions (handle w ev) !! s = Some x' ∧ still x x'.
Proof.
  intros Hx Hp.
  assert (∀ w', sessions w' = sessions w →
    ∃ x', sessions w' !! s = Some x' ∧ still x x') as Hsame.
  { intros w' ->. eauto using still_refl. }
  destruct ev; simpl.
  - unfold subscribe. destruct (clients w !! c); [|eauto using still_refl].
    simpl. exists x. split; [by apply lookup_app_l_Some|apply still_refl].
  - unfold subscribe_resolved.
    destruct (sessions w !! s0) as [x0|] eqn:Hx0; [|eauto using still_refl].
    destruct (phase x0) eqn:Hp0; eauto using still_refl.
    apply update_session_still; [|by rewrite !update_client_sessions].
    rewrite !update_client_sessions. intros x1 Hx1 ->. congruence.
  - unfold subscribe_rejected.
    destruct (sessions w !! s0) as [x0|] eqn:Hx0; [|eauto using still_refl].
    destruct (phase x0) eqn:Hp0; eauto using still_refl.
    assert (∃ x', sessions (update_session w s0 (with_phase Rejected)) !! s = Some x' ∧
                  still x x') as Hu.
    { apply update_session_still; [|done]. intros x1 Hx1 ->. congruence. }
    destruct (origin x0); [done|]. by rewrite call_opt_sessions.
  - destruct (established w s0) eqn:He; [|eauto using still_refl].
    apply update_session_still; [|done]. intros x0 Hx0 ->.
    destruct (established_lookup w s He) as (x1 & id & Hx1 & Hid).
    assert (x1 = x0) as -> by congruence.
    split; [done|]. intros Hne. by destruct (Hne id).
  - destruct (established w s0); [|eauto using still_refl].
    unfold close. destruct (sessions w !! s0) as [x0|]; [|eauto using still_refl].
    apply update_session_still; [|by rewrite update_client_sessions].
    intros. apply still_closed_client.
  - destruct (established w s0); [|eauto using still_refl].
    apply Hsame, onopen_sessions.
  - destruct (established w s0); [|eauto using still_refl].
    apply Hsame, onclose_sessions.
  - destruct (established w s0); [|eauto using still_refl].
    apply Hsame, onerror_sessions.
  - by apply dispatch_notification_still.
  - apply Hsame, dispatch_error_sessions.
  - unfold reconnect_timer. destruct (timers w !! t) as [y|]; [|eauto using still_refl].
    destruct (t_pending y); [|eauto using still_refl].
    unfold subscribe. rewrite clearTimeout_clients.
    destruct (clients w !! t_this y); simpl; rewrite clearTimeout_sessions;
      [|eauto using still_refl].
    exists x. split; [by apply lookup_app_l_Some|apply still_refl].
Qed.

Lemma run_still evs : ∀ w s x,
  sessions w !! s = Some x →
  phase x ≠ Connecting →
  ∃ x', sessions (run w evs) !! s = Some x' ∧ still x x'.
Proof.
  induction evs as [|ev evs IH]; intros w s x Hx Hp; simpl;
    [eauto using still_refl|].
  destruct (handle_still w ev s x Hx Hp) as (x1 & Hx1 & Hs1).
  destruct (IH (step w ev) s x1 Hx1) as (x2 & Hx2 & Hs2).
  { destruct Hs1 as [-> _]. done. }
  eauto using still_trans.
Qed.

(** X2: a handshake that is rejected is not retried, whatever
    [autoReconnect] says.  The rejection changes no field of a client
    object and sets no timer; the only callback is [onError] with
    ['Failed to reconnect'], and only for a call made by the reconnect
    timer.  The handlers of the call are never installed: afterwards, in
    every later world, its [Subscription] has no id, the events of its
    socket and the calls on it do nothing, and (a call that awaits its
    handshake having no listeners) no notification or error reaches a
    callback through it. *)
Theorem X2_rejected_handshake_is_final w s x evs :
  sessions w !! s = Some x →
  phase x = Connecting →
  let w1 := step w (RequestRejected s) in
  let w2 := run w1 evs in
  clients w1 = clients w ∧
  timers w1 = timers w ∧
  log w1 = log w ++ match origin x with
                    | ByReconnect (Some cb) => [OnError cb "Failed to reconnect"]
                    | _ => []
                    end ∧
  getSubscriptionId w2 s = None ∧
  handle w2 (SocketOpen s) = w2 ∧
  handle w2 (SocketClose s) = w2 ∧
  (∀ msg, handle w2 (SocketError s msg) = w2) ∧
  (∀ cb, handle w2 (CallNext s cb) = w2) ∧
  handle w2 (CallClose s) = w2 ∧
  (∀ id, handle w2 (RequestResolved s id) = w2) ∧
  (notificationListeners x = [] ∧ errorListeners x = [] →
   ∀ m e, handle w2 (Notification s m) = w2 ∧ handle w2 (RpcError s e) = w2).
Proof.
  intros Hx Hp w1 w2.
  assert (clients w1 = clients w) as Hc by apply subscribe_rejected_clients.
  assert (timers w1 = timers w) as Ht by apply subscribe_rejected_timers.
  assert (sessions w1 !! s = Some (with_phase Rejected x)) as Hx1.
  { unfold w1. simpl. unfold subscribe_rejected. rewrite Hx, Hp.
    destruct (origin x); rewrite ?call_opt_sessions;
      rewrite update_session_lookup, decide_True, Hx by done; done. }
  split; [done|]. split; [done|]. split.
  { unfold w1. simpl. unfold subscribe_rejected. rewrite Hx, Hp.
    destruct (origin x) as [|[cb|]]; simpl;
      rewrite ?update_session_log, ?app_nil_r; done. }
  destruct (run_still evs w1 s _ Hx1) as (x2 & Hx2 & Hp2 & Hl2); [done|].
  fold w2 in Hx2. simpl in Hp2, Hl2.
  assert (getSubscriptionId w2 s = None) as Hid.
  { unfold getSubscriptionId. by rewrite Hx2, Hp2. }
  assert (established w2 s = false) as He by (unfold established; by rewrite Hid).
  split; [done|]. simpl. rewrite He.
  repeat split; try done.
  - unfold subscribe_resolved. by rewrite Hx2, Hp2.
  - destruct (Hl2 ltac:(done) H) as [Hn _].
    unfold dispatch_notification. rewrite Hx2, Hn. by destruct (closed x2).
  - destruct (Hl2 ltac:(done) H) as [_ Hr].
    unfold dispatch_error. rewrite Hx2, Hr. by destruct (closed x2).
Qed.

(** ** The close handler without a bound, and without reconnection *)

Lemma update_client_clients w c f o :
  clients w !! c = Some o →
  clients (update_client w c f) = <[c := f o]> (clients w).
Proof. intros Ho. unfold update_client. by rewrite Ho. Qed.

Lemma reconnectSettings_disabled (uo : @UserOptions Data) :
  reconnectSettings (merge_options uo) = None ↔
  u_autoReconnect uo = Missing ∨ u_autoReconnect uo = Undefined ∨
  u_autoReconnect uo = Given (AutoReconnectBool false).
Proof.
  unfold reconnectSettings, merge_options. simpl.
  destruct (u_autoReconnect uo) as [| |[[]|r]]; simpl;
    (split; [intros; auto; done|intros [|[|]]; done]).
Qed.

(** X3: [autoReconnect] missing, undefined or [false] are the three ways to
    have no reconnection, and no others.  Then the unexpected close of an
    established connection sets no timer and touches no session: it marks
    the client object as not open and calls [onError], if there is one,
    with ['WebSocket connection closed unexpectedly']. *)
Theorem X3_close_without_autoReconnect w s x o id :
  sessions w !! s = Some x →
  phase x = Established id →
  clients w !! this x = Some o →
  explicitlyClosed o = false →
  u_autoReconnect (userOptions x) = Missing ∨
  u_autoReconnect (userOptions x) = Undefined ∨
  u_autoReconnect (userOptions x) = Given (AutoReconnectBool false) →
  timers (handle w (SocketClose s)) = timers w ∧
  sessions (handle w (SocketClose s)) = sessions w ∧
  clients (handle w (SocketClose s)) = <[this x := with_isOpen false o]> (clients w) ∧
  log (handle w (SocketClose s)) =
    log w ++ match onError (options x) with
             | Some cb => [OnError cb "WebSocket connection closed unexpectedly"]
             | None => []
             end.
Proof.
  intros Hx Hp Ho Hflag Hoff.
  apply reconnectSettings_disabled in Hoff. fold (options x) in Hoff.
  simpl. rewrite (established_true w s x id) by done.
  rewrite (onclose_no_reconnect w s x o) by done.
  rewrite call_opt_timers, call_opt_sessions, call_opt_clients, call_opt_log.
  rewrite update_client_timers, update_client_sessions, update_client_log.
  by rewrite (update_client_clients w (this x) _ o).
Qed.

Lemma canKeepRetrying_unbounded r count n :
  unbounded r →
  canKeepRetrying (default (RetriesNumber (-1)) (retries r)) count n = true.
Proof.
  intros [->|(m & -> & Hm)]; simpl; [done|].
  destruct (Z.ltb_spec m 0); [done|lia].
Qed.

Section unbounded.

Context (s : nat) (x0 : Session) (r : ReconnectSettings) (id : Z).
Context (Hid : phase x0 = Established id).
Context (Hr : reconnectSettings (options x0) = Some r).
Context (Hun : unbounded r).

Lemma unbounded_run evs : ∀ w o,
  (∃ x, sessions w !! s = Some x ∧ same_call x0 x) →
  clients w !! this x0 = Some o →
  explicitlyClosed o = false →
  Forall (λ ev, is_close s ev = true ∨ quiet ev = true) evs →
  length (timers (run w evs)) = (length (timers w) + closes s evs)%nat ∧
  failed_calls (log (run w evs)) = failed_calls (log w) ∧
  ∃ o', clients (run w evs) !! this x0 = Some o' ∧
        retriesCount o' = retriesCount o + Z.of_nat (closes s evs).
Proof.
  induction evs as [|ev evs IH]; intros w o Hs Ho Hflag Hevs; simpl.
  { split; [lia|]. split; [done|]. exists o. split; [done|lia]. }
  inversion Hevs as [|? ? Hev Hrest]; subst.
  destruct Hs as (x & Hx & Hsame).
  pose proof Hsame as (Hthis & _ & _ & Huo & _ & Hph).
  assert (options x = options x0) as Hopt by (unfold options; by rewrite Huo).
  destruct (is_close s ev) eqn:Hclose.
  - destruct ev; try done. simpl in Hclose.
    apply bool_decide_eq_true in Hclose as ->.
    assert (sessions (step w (SocketClose s)) !! s = Some x) as Hx'.
    { simpl. destruct (established w s); [|done]. by rewrite onclose_sessions. }
    assert (handle w (SocketClose s) = onclose w s) as Hh.
    { simpl. by rewrite (established_true w s x id) by eauto. }
    rewrite <- Hthis in Ho.
    destruct (onclose_scheduled w s x o Hx Ho r Hflag) as (Hc & Hlen & _ & Hlog & _).
    { by rewrite Hopt. }
    { by apply canKeepRetrying_unbounded. }
    edestruct (IH (step w (SocketClose s))
                 {| url := url o; isOpen := false; explicitlyClosed := false;
                    retriesCount := retriesCount o + 1;
                    reconnectTimer := Some (length (timers w)) |})
      as (IHt & IHf & o' & Ho' & Hcount); [by eauto| |done|done|].
    { change (clients (step w (SocketClose s))) with (clients (handle w (SocketClose s))).
      rewrite Hh, Hc, <- Hthis.
      apply list_lookup_insert_eq. by eapply lookup_lt_Some. }
    rewrite IHt, IHf.
    change (timers (step w (SocketClose s)))
      with (timers (handle w (SocketClose s))).
    change (log (step w (SocketClose s)))
      with (log (handle w (SocketClose s))).
    rewrite Hh, Hlen, Hlog.
    split; [lia|]. split; [done|]. exists o'. split; [done|].
    rewrite Hcount. simpl. lia.
  - destruct Hev as [?|Hq]; [done|].
    destruct (quiet_step w ev Hq) as (Hlen & Hfail).
    destruct (handle_client w ev _ o Ho) as (o1 & Ho1 & _ & _ & _ & Hkeep & _).
    destruct (Hkeep Hq) as (Hf' & Hc' & _).
    destruct (handle_evolves w ev s x Hx) as (x' & Hx' & Hsame').
    edestruct (IH (step w ev) o1) as (IHt & IHf & o' & Ho' & Hcount);
      [by eauto using same_call_trans|done|congruence|done|].
    rewrite IHt, IHf.
    change (timers (step w ev)) with (timers (handle w ev)).
    change (log (step w ev)) with (log (handle w ev)).
    rewrite Hlen, Hfail. split; [lia|]. split; [done|].
    exists o'. split; [done|]. rewrite Hcount, Hc'. lia.
Qed.

End unbounded.

(** X4: without [retries], as with [autoReconnect: true], or with a
    negative number, the retries have no bound: the decision is to retry at
    every value of the counter.  Every unexpected close of the established
    session then sets a timer, with the [delay] of the settings or 1000,
    counts one more attempt, and [onFailed] is never called, however many
    closes there are between quiet events. *)
Theorem X4_unbounded_retries w s x o r id evs :
  sessions w !! s = Some x →
  phase x = Established id →
  clients w !! this x = Some o →
  explicitlyClosed o = false →
  reconnectSettings (options x) = Some r →
  unbounded r →
  Forall (λ ev, is_close s ev = true ∨ quiet ev = true) evs →
  (∀ count n,
     canKeepRetrying (default (RetriesNumber (-1)) (retries r)) count n = true) ∧
  (∃ y, timers (handle w (SocketClose s)) !! length (timers w) = Some y ∧
        t_delay y = default 1000 (delay r) ∧ t_pending y = true) ∧
  length (timers (run w evs)) = (length (timers w) + closes s evs)%nat ∧
  failed_calls (log (run w evs)) = failed_calls (log w) ∧
  ∃ o', clients (run w evs) !! this x = Some o' ∧
        retriesCount o' = retriesCount o + Z.of_nat (closes s evs).
Proof.
  intros Hx Hid Ho Hflag Hr Hun Hevs.
  split; [intros; by apply canKeepRetrying_unbounded|]. split.
  - simpl. rewrite (established_true w s x id) by done.
    destruct (onclose_scheduled w s x o Hx Ho r Hflag Hr) as (_ & _ & Hnew & _).
    { by apply canKeepRetrying_unbounded. }
    eexists. split; [exact Hnew|done].
  - apply (unbounded_run s x r id Hid Hr Hun evs w o);
      eauto using same_call_refl.
Qed.

(** ** Timers are set by close events only *)

Lemma loud_step_log w ev :
  quiet ev = false → closing ev = false → log (handle w ev) = log w.
Proof.
  destruct ev; simpl; try done; intros _ _.
  - unfold subscribe_resolved. destruct (sessions w !! s) as [x|]; [|done].
    destruct (phase x); try done.
    by rewrite update_session_log, !update_client_log.
  - destruct (established w s); [|done].
    unfold close. destruct (sessions w !! s) as [x|]; [|done].
    by rewrite client_close_log, update_client_log.
  - destruct (established w s); [|done].
    unfold onopen. destruct (sessions w !! s) as [x|]; [|done].
    by rewrite !update_client_log.
Qed.

Lemma calm_step w ev :
  closing ev = false →
  length (timers (handle w ev)) = length (timers w) ∧
  failed_calls (log (handle w ev)) = failed_calls (log w).
Proof.
  intros Hc. destruct (quiet ev) eqn:Hq; [by apply quiet_step|].
  rewrite loud_step_log by done. split; [|done].
  rewrite handle_timers_same; [done|done|]. by destruct ev.
Qed.

(** X5: reconnect timers are set by the close handler only, and [onFailed]
    is called by it only: through any events among which no socket closes
    (socket errors, notifications, handshakes, calls of the caller, timers
    that fire) the number of timers stays and [onFailed] is not called. *)
Theorem X5_only_close_sets_timers w evs :
  Forall (λ ev, closing ev = false) evs →
  length (timers (run w evs)) = length (timers w) ∧
  failed_calls (log (run w evs)) = failed_calls (log w).
Proof.
  revert w. induction evs as [|ev evs IH]; intros w Hevs; simpl; [done|].
  inversion Hevs as [|? ? Hev Hrest]; subst.
  destruct (IH (step w ev) Hrest) as (-> & ->). by apply calm_step.
Qed.

(** ** Notifications in the order of arrival *)

Lemma notification_listener_plain w s x cb event :
  sessions w !! s = Some x →
  once (options x) ≠ Some true →
  notification_listener w s cb event =
    if accepts x (data (result event))
    then emit w [CallbackResult cb (result event)]
    else w.
Proof.
  intros Hx Honce. unfold notification_listener, accepts. rewrite Hx.
  destruct (once (options x)) as [[]|]; [done|..];
    (destruct (filter (options x)) as [f|]; [by destruct (f _)|done]).
Qed.

Lemma dispatch_plain_fold l : ∀ w s x event,
  sessions w !! s = Some x →
  once (options x) ≠ Some true →
  let w' := foldl (λ w cb, notification_listener w s cb event) w l in
  sessions w' = sessions w ∧ clients w' = clients w ∧ timers w' = timers w ∧
  log w' = log w ++ if accepts x (data (result event))
                    then (λ cb, CallbackResult cb (result event)) <$> l
                    else [].
Proof.
  induction l as [|cb l IH]; intros w s x event Hx Honce; simpl.
  { destruct (accepts _ _); by rewrite app_nil_r. }
  rewrite (notification_listener_plain w s x) by done.
  destruct (accepts x (data (result event))) eqn:Ha.
  - destruct (IH (emit w [CallbackResult cb (result event)]) s x event Hx Honce)
      as (-> & -> & -> & ->).
    rewrite Ha. simpl. by rewrite <- app_assoc.
  - destruct (IH w s x event Hx Honce) as (-> & -> & -> & ->).
    by rewrite Ha.
Qed.

(** X7: for a session without [once] whose client is not closed, the
    callbacks receive exactly the notifications that the filter accepts,
    each registered callback once for each of them, in the order in which
    the notifications arrive.  Through a closed client no notification
    reaches a callback at all.  Either way nothing else in the world
    changes but the tick of the loop. *)
Theorem X7_notifications_in_order w s x
    (ms : list (@NotificationMessageParams Data Metadata)) :
  sessions w !! s = Some x →
  once (options x) ≠ Some true →
  log (run w (Notification s <$> ms)) =
    log w ++ (if closed x then [] else deliveries x ms) ∧
  sessions (run w (Notification s <$> ms)) = sessions w ∧
  clients (run w (Notification s <$> ms)) = clients w ∧
  timers (run w (Notification s <$> ms)) = timers w.
Proof.
  revert w. induction ms as [|m ms IH]; intros w Hx Honce.
  { simpl. destruct (closed x); by rewrite app_nil_r. }
  rewrite fmap_cons.
  change (run w (Notification s m :: (Notification s <$> ms)))
    with (run (step w (Notification s m)) (Notification s <$> ms)).
  assert (sessions (step w (Notification s m)) = sessions w ∧
          clients (step w (Notification s m)) = clients w ∧
          timers (step w (Notification s m)) = timers w ∧
          log (step w (Notification s m)) =
            log w ++ if closed x then [] else
                     if accepts x (data (result m))
                     then (λ cb, CallbackResult cb (result m)) <$> notificationListeners x
                     else []) as (Hs & Hc & Ht & Hl).
  { unfold step, handle, dispatch_notification. rewrite Hx.
    destruct (closed x); [by rewrite app_nil_r|].
    apply (dispatch_plain_fold (notificationListeners x) w s x m Hx Honce). }
  destruct (IH (step w (Notification s m))) as (-> & -> & -> & ->);
    [by rewrite Hs|done|].
  rewrite Hl, Hs, Hc, Ht. repeat split; try done.
  destruct (closed x); [by rewrite !app_nil_r|].
  unfold deliveries. simpl. by rewrite <- app_assoc.
Qed.

(** ** The open flag *)

Lemma handle_isOpen w ev c o :
  clients w !! c = Some o →
  early_open w ev = true →
  ∃ o', clients (handle w ev) !! c = Some o' ∧
        (isOpen o' = true → isOpen o = true).
Proof.
  intros Ho Hev.
  assert (∀ w', clients w' = clients w →
    ∃ o', clients w' !! c = Some o' ∧ (isOpen o' = true → isOpen o = true))
    as Hsame.
  { intros w' ->. eauto. }
  destruct ev; simpl in *.
  - apply Hsame, subscribe_clients.
  - unfold subscribe_resolved.
    destruct (sessions w !! s) as [x|] eqn:Hx; [|by apply Hsame].
    destruct (phase x); try by apply Hsame.
    rewrite update_session_clients, !update_client_lookup, Ho. simpl.
    eexists; split; [done|]. by repeat case_decide.
  - apply Hsame, subscribe_rejected_clients.
  - destruct (established w s); [|by apply Hsame].
    apply Hsame. apply update_session_clients.
  - destruct (established w s); [|by apply Hsame].
    unfold close. destruct (sessions w !! s) as [x|] eqn:Hx; [|by apply Hsame].
    rewrite client_close_clients, update_client_lookup, Ho. simpl.
    eexists; split; [done|]. by case_decide.
  - destruct (established w s); [done|by apply Hsame].
  - destruct (established w s); [|by apply Hsame].
    destruct (sessions w !! s) as [x|] eqn:Hx;
      [|unfold onclose; rewrite Hx; by apply Hsame].
    destruct (clients w !! this x) as [ox|] eqn:Hox.
    2:{ unfold onclose. rewrite Hx. simpl.
        rewrite update_client_lookup, decide_True, Hox by done. simpl.
        rewrite update_client_lookup, Ho. simpl.
        destruct (decide (this x = c)) as [<-|]; [congruence|eauto]. }
    destruct (explicitlyClosed ox) eqn:Hflag.
    { rewrite (onclose_explicit w s x ox) by done.
      rewrite update_client_lookup, Ho. simpl.
      eexists; split; [done|]. by case_decide. }
    destruct (reconnectSettings (options x)) as [r|] eqn:Hr.
    2:{ rewrite (onclose_no_reconnect w s x ox) by done.
        rewrite call_opt_clients, update_client_lookup, Ho. simpl.
        eexists; split; [done|]. by case_decide. }
    destruct (canKeepRetrying (default (RetriesNumber (-1)) (retries r))
                (retriesCount ox) (now w)) eqn:Hk.
    2:{ rewrite (onclose_exhausted w s x ox Hx Hox r) by done.
        rewrite call_opt_clients, update_client_lookup, Ho. simpl.
        eexists; split; [done|]. by case_decide. }
    destruct (onclose_scheduled w s x ox Hx Hox r Hflag Hr Hk) as (-> & _).
    destruct (decide (this x = c)) as [<-|Hne].
    + rewrite list_lookup_insert_eq by (by eapply lookup_lt_Some).
      eexists; split; [done|]. done.
    + rewrite list_lookup_insert_ne by done. eauto.
  - destruct (established w s); [|by apply Hsame].
    unfold onerror. destruct (sessions w !! s) as [x|] eqn:Hx; [|by apply Hsame].
    rewrite call_opt_clients, update_client_lookup. simpl. rewrite Ho. simpl.
    eexists; split; [done|]. by case_decide.
  - apply Hsame, dispatch_notification_clients.
  - apply Hsame, dispatch_error_clients.
  - apply Hsame, reconnect_timer_clients.
Qed.

Lemma run_isOpen evs : ∀ w c o',
  opens_early w evs = true →
  clients (run w evs) !! c = Some o' →
  isOpen o' = true →
  ∃ o, clients w !! c = Some o ∧ isOpen o = true.
Proof.
  induction evs as [|ev evs IH]; intros w c o' Hevs Ho' Hopen; simpl in *; [eauto|].
  apply andb_prop in Hevs as [Hev Hrest].
  destruct (IH (step w ev) c o' Hrest Ho' Hopen) as (o1 & Ho1 & Hopen1).
  change (clients (step w ev)) with (clients (handle w ev)) in Ho1.
  destruct (lookup_lt_is_Some_2 (clients w) c) as [o Ho].
  { rewrite <- (handle_clients_length w ev). by eapply lookup_lt_Some. }
  destruct (handle_isOpen w ev c o Ho Hev) as (o2 & Ho2 & Himp).
  exists o. split; [done|]. apply Himp. congruence.
Qed.

Lemma onopen_isOpen w s x o :
  sessions w !! s = Some x →
  clients w !! this x = Some o →
  clients (onopen w s) !! this x =
    Some (with_retriesCount 0 (with_isOpen true o)).
Proof.
  intros Hx Ho. unfold onopen. rewrite Hx.
  rewrite !update_client_lookup, !decide_True, Ho by done. done.
Qed.

(** X8: the open flag is raised by the open handler only, and the handlers
    are installed after the handshake.  An open event that reaches a
    session before its handshake is answered (as the open event of a socket
    does, the request being sent over the open socket) finds no handler
    and changes nothing.  So for client objects as the constructor makes
    them, as long as every open event is of that kind, no client object is
    open and no [Subscription] reports an open connection, completed
    handshakes included; while an open event at an established session
    makes its [Subscription] report an open connection. *)
Theorem X8_open_only_by_open_event (cs : list WebSocketClient) evs s :
  Forall (λ o, isOpen o = false) cs →
  opens_early (start cs) evs = true →
  let w : World := run (start cs) evs in
  (∀ c o, clients w !! c = Some o → isOpen o = false) ∧
  isConnectionOpen w s ≠ Some true ∧
  (established w s = false → handle w (SocketOpen s) = w) ∧
  (established w s = true →
   isConnectionOpen (step w (SocketOpen s)) s = Some true).
Proof.
  intros Hcs Hevs w.
  assert (∀ c o, clients w !! c = Some o → isOpen o = false) as Hall.
  { intros c o Ho. destruct (isOpen o) eqn:Hopen; [|done].
    destruct (run_isOpen evs (start cs) c o Hevs Ho Hopen) as (o0 & Ho0 & Hopen0).
    rewrite Forall_forall in Hcs. simpl in Ho0.
    rewrite (Hcs o0) in Hopen0; [done|]. by eapply list_elem_of_lookup_2. }
  split; [done|]. split; [|split].
  - unfold isConnectionOpen.
    destruct (sessions w !! s) as [x|]; [|done].
    destruct (clients w !! this x) as [o|] eqn:Ho; [|done].
    simpl. by rewrite (Hall _ o Ho).
  - intros He. simpl. by rewrite He.
  - intros He. destruct (established_lookup w s He) as (x & id & Hx & _).
    assert (transport_urls w) as Hinv.
    { apply run_transport_url. intros s' x'. by simpl. }
    destruct (Hinv s x Hx) as (o & Ho & _).
    unfold isConnectionOpen, step. simpl. rewrite He.
    rewrite onopen_sessions, Hx.
    by rewrite (onopen_isOpen w s x o Hx Ho).
Qed.

(** ** Closing twice *)

Lemma update_client_twice w c f :
  (∀ o, f (f o) = f o) →
  update_client (update_client w c f) c f = update_client w c f.
Proof.
  intros Hf. unfold update_client at 2 3.
  destruct (clients w !! c) as [o|] eqn:Ho; [|by unfold update_client; rewrite Ho].
  unfold update_client. simpl.
  rewrite list_lookup_insert_eq by (by eapply lookup_lt_Some).
  unfold set_clients. simpl. by rewrite list_insert_insert_eq, Hf.
Qed.

Lemma update_session_twice w s f :
  (∀ x, f (f x) = f x) →
  update_session (update_session w s f) s f = update_session w s f.
Proof.
  intros Hf. unfold update_session at 2 3.
  destruct (sessions w !! s) as [x|] eqn:Hx; [|by unfold update_session; rewrite Hx].
  unfold update_session. simpl.
  rewrite list_lookup_insert_eq by (by eapply lookup_lt_Some).
  unfold set_sessions. simpl. by rewrite list_insert_insert_eq, Hf.
Qed.

Lemma update_client_session_comm w c f s g :
  update_client (update_session w s g) c f = update_session (update_client w c f) s g.
Proof.
  destruct (sessions w !! s) as [x|] eqn:Hx;
    destruct (clients w !! c) as [o|] eqn:Ho;
    unfold update_client, update_session; rewrite ?Hx, ?Ho; simpl;
    rewrite ?Hx, ?Ho; done.
Qed.

(** X9: [close()] is idempotent: a second [close()] on a [Subscription]
    leaves the world as the first one left it, and after either the
    explicitly-closed flag of the client object is set and the session is
    closed with no listener left. *)
Theorem X9_close_twice w s x o id :
  sessions w !! s = Some x →
  phase x = Established id →
  clients w !! this x = Some o →
  let w1 := handle w (CallClose s) in
  handle w1 (CallClose s) = w1 ∧
  clients w1 !! this x = Some (with_explicitlyClosed true o) ∧
  sessions w1 !! s = Some (closed_client x) ∧
  timers w1 = timers w ∧ log w1 = log w.
Proof.
  intros Hx Hp Ho w1.
  assert (w1 = update_session (update_client w (this x) (with_explicitlyClosed true))
                 s closed_client) as Hw1.
  { unfold w1. simpl. rewrite (established_true w s x id) by done.
    unfold close. by rewrite Hx. }
  assert (sessions w1 !! s = Some (closed_client x)) as Hx1.
  { rewrite Hw1, update_session_lookup, decide_True, update_client_sessions, Hx by done.
    done. }
  split; [|split; [|split; [done|]]].
  - simpl. rewrite (established_true w1 s (closed_client x) id) by done.
    unfold close. rewrite Hx1. simpl. unfold client_close.
    rewrite Hw1 at 1 2.
    rewrite update_client_session_comm, update_client_twice by done.
    rewrite update_session_twice by done. done.
  - rewrite Hw1, update_session_clients, update_client_lookup, decide_True, Ho by done.
    done.
  - rewrite Hw1.
    by rewrite update_session_timers, update_session_log, update_client_timers,
      update_client_log.
Qed.

(** ** The scheme of the URL *)

(** X10: the constructor's replacement touches a leading [http] only.  A
    [ws://] or [wss://] URL passes unchanged; an [http] further on is not
    replaced; and replacing twice is replacing once. *)
Theorem X10_replace_http_once (u rest : string) :
  replace_http ("ws" ++ rest) = ("ws" ++ rest)%string ∧
  replace_http ("http" ++ rest) = ("ws" ++ rest)%string ∧
  replace_http (replace_http u) = replace_http u.
Proof.
  assert (∀ r, replace_http ("ws" ++ r) = ("ws" ++ r)%string) as Hws.
  { intros r. unfold replace_http.
    change ("ws" ++ r)%string with (String "w"%char (String "s"%char r)).
    done. }
  split; [|split].
  - apply Hws.
  - apply replace_http_prefix.
  - unfold replace_http at 2 3.
    destruct (String.prefix "http" u) eqn:Hp; [apply Hws|].
    unfold replace_http. by rewrite Hp.
Qed.

End Properties.

(** * The block streams *)

Section BlockStreams.

Context {Metadata : Type}.

(** X6: the helpers merge the defaults into the caller's options before
    they call [subscribe], which merges them again; [subscribe] reads from
    the result what it would read from the caller's options alone, and the
    defaults when the caller gave none.  A key that is present with the
    value undefined hides the default both times: with [filter: undefined]
    there is no filter. *)
Theorem X6_defaults_merged_twice {Data : Type} (u : @UserOptions Data) :
  merge_options (spread_options (Some u)) = merge_options u ∧
  merge_options (spread_options (Data:=Data) None) = WS_DEFAULT_OPTIONS ∧
  (u_filter u = Undefined → filter (merge_options (spread_options (Some u))) = None).
Proof.
  split; [|split].
  - unfold merge_options, spread_options. simpl.
    by destruct (u_once u), (u_filter u), (u_timeout u), (u_onError u),
      (u_autoReconnect u).
  - done.
  - intros Hf. unfold merge_options, spread_options. simpl. by rewrite Hf.
Qed.

(** X11: [getBlockType] throws its own error exactly on the falsy payloads
    (undefined, null, false, zero, the empty string), and the operator [in]
    throws a [TypeError] exactly on the other payloads that are no object.
    An object without the key [isElectionBlock] is a micro block, one whose
    [isElectionBlock] is truthy an election block, and every other one (the
    key present and falsy or undefined) a macro block; so of the three
    filters exactly one accepts an object, the one of its type, and on a
    payload that is no object all three throw what [getBlockType]
    throws. *)
Theorem X11_block_type_partition (v : JSValue) (b : Block) :
  (getBlockType v = Throws BlockIsUndefined ↔ truthy v = false) ∧
  (getBlockType v = Throws TypeError ↔ truthy v = true ∧ ∀ b', v ≠ JSObject b') ∧
  ((∃ k, getBlockType v = Returns k) ↔ ∃ b', v = JSObject b') ∧
  (∃ k, getBlockType (JSObject b) = Returns k ∧
        ∀ k', kind_filter k' (JSObject b) = Returns (bool_decide (k' = k))) ∧
  (getBlockType (JSObject b) = Returns Micro ↔ isElectionBlock b = Missing) ∧
  (getBlockType (JSObject b) = Returns Election ↔ isElectionBlock b = Given true) ∧
  (getBlockType (JSObject b) = Returns Macro ↔
   isElectionBlock b = Undefined ∨ isElectionBlock b = Given false) ∧
  (∀ e, getBlockType v = Throws e →
        isMicro v = Throws e ∧ isMacro v = Throws e ∧ isElection v = Throws e).
Proof.
  split; [|split; [|split; [|split; [|split; [|split; [|split]]]]]].
  - unfold getBlockType. destruct v as [| |[]|n|str|b0]; simpl; try (split; done).
    + destruct (n =? 0); simpl; split; done.
    + destruct (String.eqb str ""); simpl; split; done.
    + destruct (isElectionBlock b0) as [| |[]]; split; done.
  - unfold getBlockType. destruct v as [| |[]|n|str|b0]; simpl.
    + split; [done|by intros [? ?]].
    + split; [done|by intros [? ?]].
    + split; [|done]. intros _. split; [done|]. by intros b0.
    + split; [done|by intros [? ?]].
    + destruct (n =? 0); simpl; (split; [|try done; by intros [? ?]]); done.
    + destruct (String.eqb str ""); simpl; (split; [|try done; by intros [? ?]]); done.
    + split; [by destruct (isElectionBlock b0) as [| |[]]|]. intros [_ H]. by destruct (H b0).
  - split.
    + intros [k Hk]. unfold getBlockType in Hk.
      destruct v as [| |[]|n|str|b0]; simpl in Hk; try done; [| |eauto].
      * by destruct (n =? 0).
      * by destruct (String.eqb str "").
    + intros [b0 ->]. unfold getBlockType. simpl.
      destruct (isElectionBlock b0) as [| |[]]; eauto.
  - destruct b as [[| |[]] h];
      [exists Micro|exists Macro|exists Election|exists Macro];
      (split; [done|]); by intros [].
  - unfold getBlockType. simpl. destruct (isElectionBlock b) as [| |[]]; split; done.
  - unfold getBlockType. simpl. destruct (isElectionBlock b) as [| |[]]; split; done.
  - unfold getBlockType. simpl.
    destruct (isElectionBlock b) as [| |[]]; split; try done; try (by intros [|]); eauto.
  - intros e He. unfold isMicro, isMacro, isElection. by rewrite He.
Qed.




End BlockStreams.

(** * The properties on the sample data *)

Import Sample.

(** ** Reconnection after [close()] *)

(** C1: the socket of a reconnecting subscription closes unexpectedly and,
    while the reconnect timer waits, the caller calls [close()].  The flag
    is set, but the timer is still pending; when it fires, [subscribe] is
    called again, and when that handshake is answered the flag is cleared. *)
Lemma C1_close_leaves_reconnect_timer :
  let w := run (subscribed reconnecting) [SocketClose 0; CallClose 0] in
  explicitlyClosed <$> clients w !! O = Some true ∧
  pending_timers (timers w) = 1%nat ∧
  reconnect_attempts (sessions w) = O ∧
  reconnect_attempts (sessions (run w [TimerFired 0])) = 1%nat ∧
  explicitlyClosed <$>
    clients (run w [TimerFired 0; RequestResolved 1 12]) !! O = Some false.
Proof. by vm_compute. Qed.

(** C5: with [once] and [autoReconnect], the first accepted notification
    reaches the callback once and the JSON-RPC client is closed, later
    notifications reach nobody; but the explicitly-closed flag stays
    unset, so the close event of the socket sets a reconnect timer, which
    calls [subscribe] again. *)
Lemma C5_once_close_not_explicit :
  let w := run (subscribed once_reconnecting)
             [CallNext 0 1%nat; Notification 0 (block 20);
              Notification 0 (block 30)] in
  log w = [CallbackResult 1%nat (payload 20)] ∧
  closed <$> sessions w !! O = Some true ∧
  explicitlyClosed <$> clients w !! O = Some false ∧
  pending_timers (timers (run w [SocketClose 0])) = 1%nat ∧
  reconnect_attempts (sessions (run w [SocketClose 0; TimerFired 0])) = 1%nat.
Proof. by vm_compute. Qed.

(** ** The original [Subscription] after a reconnect *)

(** Counterexample to C2 as the specification states it: after a reconnect
    whose handshake is answered with the id 12, the original [Subscription]
    object still reports 11, a callback given to its [next] is not called
    for a notification of the new transport, and its [close] leaves the new
    transport open. *)
Lemma C2_original_handle_not_rebound :
  let w := run (subscribed reconnecting)
             [SocketClose 0; TimerFired 0; RequestResolved 1 12] in
  reconnect_attempts (sessions w) = 1%nat ∧
  getSubscriptionId w 1 = Some 12 ∧
  getSubscriptionId w 0 = Some 11 ∧
  log (run w [CallNext 0 1%nat; Notification 1 (block 20)]) = [] ∧
  closed <$> sessions (run w [CallClose 0]) !! 1%nat = Some false.
Proof. by vm_compute. Qed.

(** The reconnect of the sample subscription, answered with the id 12:
    the new call has the request and the options of the first; the first
    [Subscription] keeps the id 11; a callback given to its [next] is not
    called for a notification of the new transport; its [close] leaves the
    new session open but sets the flag of the client object, after which
    the close of the new socket sets no timer, where before it sets one. *)
Lemma C2_reconnect_keeps_arguments_witness :
  let w := subscribed reconnecting in
  let w2 := run w [SocketClose 0; TimerFired 0; RequestResolved 1 12] in
  let evs := [CallNext 0 1%nat; Notification 1 (block 20);
              CallSubscribe 0 headBlock plain; CallClose 0] in
  sessions w !! O = Some (session reconnecting) ∧
  callers_own w2 evs = true ∧
  sessions (run w [SocketClose 0; TimerFired 0]) =
    [session reconnecting; reconnected reconnecting] ∧
  sessions w2 =
    [session reconnecting;
     with_phase (Established 12) (reconnected reconnecting)] ∧
  getSubscriptionId w2 1 = Some 12 ∧
  getSubscriptionId w2 0 = Some 11 ∧
  getSubscriptionId (run w2 evs) 0 = Some 11 ∧
  (sessions (handle w2 (CallNext 0 1%nat)) !! O =
     Some (add_listeners 1%nat (session reconnecting)) ∧
   sessions (handle w2 (CallNext 0 1%nat)) !! 1%nat = sessions w2 !! 1%nat ∧
   handle (handle w2 (CallNext 0 1%nat)) (Notification 1 (block 20)) =
     handle w2 (CallNext 0 1%nat)) ∧
  (sessions (handle w2 (CallClose 0)) !! O =
     Some (closed_client (session reconnecting)) ∧
   sessions (handle w2 (CallClose 0)) !! 1%nat = sessions w2 !! 1%nat ∧
   explicitlyClosed <$> clients w2 !! O = Some false ∧
   explicitlyClosed <$> clients (handle w2 (CallClose 0)) !! O = Some true ∧
   length (timers (step w2 (SocketClose 1))) = S (length (timers w2)) ∧
   timers (run w2 [CallClose 0; SocketClose 1]) = timers w2) ∧
  (∃ x1, sessions (run w2 evs) !! 1%nat = Some x1 ∧
         notificationListeners x1 = [] ∧ errorListeners x1 = [] ∧
         handle (run w2 evs) (Notification 1 (block 20)) = run w2 evs).
Proof.
  pose proof (C2_reconnect_keeps_arguments (subscribed reconnecting) 0
    (session reconnecting) node
    {| retries := None; delay := None; onFailed := None |} 11 12
    [CallNext 0 1%nat; Notification 1 (block 20);
     CallSubscribe 0 headBlock plain; CallClose 0] 1%nat (block 20)
    eq_refl eq_refl eq_refl eq_refl eq_refl eq_refl)
    as (H1 & H2 & H3 & H4 & H5 & H6 & (H7 & H8 & H9 & H10 & H11 & H12) & H13).
  split; [reflexivity|]. split; [reflexivity|].
  split; [exact H1|]. split; [exact H2|]. split; [exact H3|].
  split; [exact H4|]. split; [exact H5|]. split; [exact H6|].
  split; [|exact (H13 eq_refl)].
  split; [exact H7|]. split; [exact H8|]. split; [exact H9|].
  split; [exact H10|]. split; [exact (H11 eq_refl)|exact H12].
Defined.

(** ** The retry budget *)

(** Counterexample to C3 as the specification states it: with [retries: 2],
    three unexpected closes in a row, each of a connection that a reconnect
    had established, set three reconnect timers and make three reconnect
    attempts; [onFailed] is not called. *)
Lemma C3_budget_reset_by_reconnect :
  let w := run (subscribed (retrying 2))
             [SocketClose 0; TimerFired 0; RequestResolved 1 12;
              SocketClose 1; TimerFired 1; RequestResolved 2 13;
              SocketClose 2] in
  length (timers w) = 3%nat ∧
  pending_timers (timers w) = 1%nat ∧
  log w = [] ∧
  reconnect_attempts (sessions (run w [TimerFired 2])) = 3%nat.
Proof. by vm_compute. Qed.

(** Three subscriptions on one client object, each with [retries: 2]: the
    sockets of the first two close, each close sets a timer; the close of
    the third sets none and calls [onFailed].  An open event, or the
    answer to the handshake of the reconnect, sets the counter back. *)
Lemma C3_retry_budget_witness :
  let w := three_streams 2 in
  let evs := [SocketClose 0; TimerFired 0; SocketClose 1] in
  let w1 := run w evs in
  clients w !! O = Some node ∧
  Forall (budgeted w 0 2) [0; 1; 2]%nat ∧
  closes_of [0; 1; 2]%nat evs = 2%nat ∧
  length (timers w1) = 2%nat ∧
  failed_calls (log w1) = O ∧
  retriesCount <$> clients w1 !! O = Some 2 ∧
  timers (step w1 (SocketClose 2)) = timers w1 ∧
  log (step w1 (SocketClose 2)) = log w1 ++ [OnFailed 9%nat] ∧
  retriesCount <$> clients (step w1 (RequestResolved 3 14)) !! O = Some 0 ∧
  retriesCount <$> clients (step w1 (SocketOpen 2)) !! O = Some 0 ∧
  length (timers (run w1 [SocketOpen 2; SocketClose 2])) = 3%nat.
Proof.
  assert (Forall (budgeted (three_streams 2) 0 2) [0; 1; 2]%nat) as Hss.
  { repeat constructor.
    - exists (stream_session 2 11), 11, (bounded 2). by repeat split.
    - exists (stream_session 2 12), 12, (bounded 2). by repeat split.
    - exists (stream_session 2 13), 13, (bounded 2). by repeat split. }
  pose proof (C3_retry_budget (three_streams 2) 0 node 2 [0; 1; 2]%nat
    [SocketClose 0; TimerFired 0; SocketClose 1]) as H.
  destruct H as (_ & Ht & Hf & Hc & Hlast & Hres & Hopen);
    [lia|reflexivity|reflexivity|reflexivity|exact Hss| |reflexivity|].
  { repeat constructor; by (left + right). }
  destruct (Hlast 2%nat (stream_session 2 13) (bounded 2)) as (Hlt & Hll);
    [by repeat constructor|reflexivity|reflexivity|].
  destruct (Hopen 2%nat (stream_session 2 13) 13 eq_refl eq_refl eq_refl)
    as (Hzero & Hagain).
  split; [reflexivity|]. split; [exact Hss|]. split; [reflexivity|].
  split; [exact Ht|]. split; [exact Hf|]. split; [exact Hc|].
  split; [exact Hlt|]. split; [exact Hll|].
  split; [exact (Hres 3%nat (reconnected (retrying 2) ) 14 eq_refl eq_refl eq_refl)|].
  split; [exact Hzero|].
  apply (Hagain ltac:(lia) 2%nat). by repeat constructor.
Defined.

(** ** Exhaustion *)

(** Counterexample to C4 as the specification states it: with [retries: 0],
    no [onFailed] and an [onError], the close handler denies the retry and
    calls nothing. *)
Lemma C4_no_onError_on_exhaustion :
  let w := subscribed no_onFailed in
  reconnectSettings (options (session no_onFailed)) = Some silent ∧
  canKeepRetrying (default (RetriesNumber (-1)) (retries silent))
    0 (now w) = false ∧
  onFailed silent = None ∧
  onError (options (session no_onFailed)) = Some 7%nat ∧
  log (step w (SocketClose 0)) = [] ∧
  timers (step w (SocketClose 0)) = [].
Proof. by vm_compute. Qed.

(** With [retries: 0] and an [onFailed], the first close calls it. *)
Lemma C4_exhaustion_calls_onFailed_only_witness :
  sessions (subscribed (retrying 0)) !! O = Some (session (retrying 0)) ∧
  canKeepRetrying (default (RetriesNumber (-1)) (retries (bounded 0)))
    0 (now (subscribed (retrying 0))) = false ∧
  log (handle (subscribed (retrying 0)) (SocketClose 0)) = [OnFailed 9%nat] ∧
  timers (handle (subscribed (retrying 0)) (SocketClose 0)) = [].
Proof.
  split; [reflexivity|]. split; [reflexivity|].
  apply (C4_exhaustion_calls_onFailed_only (subscribed (retrying 0)) 0
    (session (retrying 0)) node (bounded 0) 11); reflexivity.
Defined.

(** ** The filter and the errors *)

(** A callback registered with [next] under the filter [d > 10]: the
    payload 5 does not reach it, the payload 20 does; without a filter in
    the options the payload 5 does; and after [close()] the payload 20
    does not. *)
Lemma C6_filter_gates_callback_witness :
  let w := subscribed above_ten in
  let w1 := handle w (CallNext 0 1%nat) in
  let v1 := handle (subscribed plain) (CallNext 0 1%nat) in
  let c1 := handle (step w (CallClose 0)) (CallNext 0 1%nat) in
  sessions w !! O = Some (session above_ten) ∧
  handle w1 (Notification 0 (block 5)) = w1 ∧
  log (handle w1 (Notification 0 (block 20))) =
    [CallbackResult 1%nat (payload 20)] ∧
  log (handle v1 (Notification 0 (block 5))) =
    [CallbackResult 1%nat (payload 5)] ∧
  handle c1 (Notification 0 (block 20)) = c1.
Proof.
  pose proof (C6_filter_gates_callback (subscribed above_ten) 0
    (session above_ten) 11 1%nat (block 5) eq_refl eq_refl)
    as (Hno & _ & _).
  pose proof (C6_filter_gates_callback (subscribed above_ten) 0
    (session above_ten) 11 1%nat (block 20) eq_refl eq_refl)
    as (_ & Hyes & _).
  pose proof (C6_filter_gates_callback (subscribed plain) 0
    (session plain) 11 1%nat (block 5) eq_refl eq_refl)
    as (_ & _ & Hdefault & _).
  pose proof (C6_filter_gates_callback (step (subscribed above_ten) (CallClose 0)) 0
    (closed_client (session above_ten)) 11 1%nat (block 20) eq_refl eq_refl)
    as (_ & _ & _ & Hclosed).
  split; [reflexivity|].
  split; [exact (Hno (λ d, 10 <? d) eq_refl eq_refl)|].
  split; [exact (Hyes eq_refl eq_refl)|].
  split; [exact (proj2 (Hdefault eq_refl eq_refl))|exact (Hclosed eq_refl)].
Defined.

(** An error under the filter [d > 10], which rejects every payload below
    11: the callback registered with [next] is called with it, and the
    session stays open. *)
Lemma C8_errors_bypass_filter_witness :
  let w := subscribed above_ten in
  let w1 := handle w (CallNext 0 1%nat) in
  let e := {| code := -32000; message := "Server error" |} in
  sessions w !! O = Some (session above_ten) ∧
  log (handle w1 (RpcError 0 e)) = [CallbackError 1%nat e] ∧
  sessions (handle w1 (RpcError 0 e)) = sessions w1 ∧
  closed <$> sessions (handle w1 (RpcError 0 e)) !! O = Some false ∧
  clients (handle w1 (RpcError 0 e)) = clients w ∧
  timers (handle w1 (RpcError 0 e)) = timers w.
Proof.
  pose proof (C8_errors_bypass_filter (subscribed above_ten) 0
    (session above_ten) 11 1%nat
    {| code := -32000; message := "Server error" |} eq_refl eq_refl eq_refl)
    as H.
  split; [reflexivity|exact H].
Defined.

(** ** The explicitly-closed flag *)

(** Counterexample to C7 as the specification states it: after [close()] a
    later [subscribe] call on the same client object clears the flag when
    its handshake is answered, and the close event of the first socket,
    arriving after that, sets a reconnect timer. *)
Lemma C7_flag_cleared_by_later_subscribe :
  let w := run (subscribed reconnecting) [CallClose 0] in
  explicitlyClosed <$> clients w !! O = Some true ∧
  explicitlyClosed <$>
    clients (run w [CallSubscribe 0 headBlock reconnecting;
                    RequestResolved 1 12]) !! O = Some false ∧
  pending_timers
    (timers (run w [CallSubscribe 0 headBlock reconnecting;
                    RequestResolved 1 12; SocketClose 0])) = 1%nat.
Proof. by vm_compute. Qed.

(** After [close()], events that complete no handshake. *)
Lemma C7_flag_until_next_handshake_witness :
  let w := run (subscribed reconnecting) [CallClose 0] in
  let evs := [SocketClose 0; SocketOpen 0; SocketError 0 "reset";
              CallSubscribe 0 headBlock plain; RequestRejected 1] in
  explicitlyClosed <$> clients w !! O = Some true ∧
  sessions w !! O = Some (closed_client (session reconnecting)) ∧
  explicitlyClosed <$> clients (run w evs) !! O = Some true ∧
  timers (handle w (SocketClose 0)) = timers w ∧
  log (handle w (SocketClose 0)) = log w.
Proof.
  pose proof (C7_flag_until_next_handshake
    (run (subscribed reconnecting) [CallClose 0]) 0
    [SocketClose 0; SocketOpen 0; SocketError 0 "reset";
     CallSubscribe 0 headBlock plain; RequestRejected 1] 0
    (closed_client (session reconnecting)) 0 eq_refl eq_refl eq_refl)
    as (Hrun & Ht & Hl & _).
  split; [reflexivity|]. split; [reflexivity|].
  split; [apply Hrun; repeat constructor|]. split; [exact Ht|exact Hl].
Defined.

(** ** Two calls on one client object *)

(** Counterexample to C9 as the specification states it: two [subscribe]
    calls on one client object share its fields. The unexpected close of the
    second socket sets a reconnect timer; after [close()] on the first
    [Subscription] it sets none; and the open event of the second socket
    makes the first [Subscription] report an open connection. *)
Lemma C9_sessions_share_client_fields :
  let w := run (subscribed reconnecting)
             [CallSubscribe 0 headBlock reconnecting; RequestResolved 1 12] in
  pending_timers (timers (run w [SocketClose 1])) = 1%nat ∧
  pending_timers (timers (run w [CallClose 0; SocketClose 1])) = O ∧
  isConnectionOpen w 0 = Some false ∧
  isConnectionOpen (run w [SocketOpen 1]) 0 = Some true.
Proof. by vm_compute. Qed.

(** The close event of a socket of the first of two client objects. *)
Lemma C9_state_per_client_object_witness :
  subject two_nodes (SocketClose 0) ≠ Some 1%nat ∧
  timers_owned two_nodes ∧
  clients (step two_nodes (SocketClose 0)) !! 1%nat = clients two_nodes !! 1%nat ∧
  sessions (step two_nodes (SocketClose 0)) !! 1%nat = sessions two_nodes !! 1%nat ∧
  timers (step two_nodes (SocketClose 0)) !! O = timers two_nodes !! O.
Proof.
  assert (subject two_nodes (SocketClose 0) ≠ Some 1%nat) as Hne
    by (vm_compute; congruence).
  assert (timers_owned two_nodes) as Hown.
  { apply run_timers_owned, start_timers_owned. by repeat constructor. }
  destruct (C9_state_per_client_object two_nodes (SocketClose 0) 1 Hne)
    as (Hc & Hs & Ht).
  split; [exact Hne|]. split; [exact Hown|]. split; [exact Hc|]. split.
  - rewrite (Hs 1%nat
      {| this := 1; transport_url := "ws://localhost:8648/ws";
         request := headBlock; userOptions := reconnecting; origin := ByCaller;
         phase := Established 12; errorListeners := [];
         notificationListeners := []; closed := false |} eq_refl eq_refl).
    reflexivity.
  - rewrite (Ht Hown O
      {| t_this := 1; t_request := headBlock; t_userOptions := reconnecting;
         t_onError := None; t_delay := 1000; t_pending := true |}
      eq_refl eq_refl).
    reflexivity.
Defined.

(** ** The URL *)



(** * The further properties on the sample data *)

Import SampleBlocks.

(** Two closes in a row: the first timer is cleared, the second waits. *)
Lemma X1_one_pending_timer_witness :
  let w : @World Z unit :=
    run (start [node])
      [CallSubscribe 0 headBlock reconnecting; RequestResolved 0 11;
       SocketClose 0; SocketClose 0] in
  length (timers w) = 2%nat ∧
  t_pending <$> timers w !! 1%nat = Some true ∧
  (∃ o, clients w !! O = Some o ∧ reconnectTimer o = Some 1%nat) ∧
  pending_timers (timers w) = 1%nat.
Proof.
  pose proof (X1_one_pending_timer (Data:=Z) (Metadata:=unit) [node]
    [CallSubscribe 0 headBlock reconnecting; RequestResolved 0 11;
     SocketClose 0; SocketClose 0] 1 1
    {| t_this := 0; t_request := headBlock; t_userOptions := reconnecting;
       t_onError := None; t_delay := 1000; t_pending := true |}
    {| t_this := 0; t_request := headBlock; t_userOptions := reconnecting;
       t_onError := None; t_delay := 1000; t_pending := true |}
    eq_refl eq_refl eq_refl eq_refl eq_refl) as (Hrem & _).
  split; [reflexivity|]. split; [reflexivity|]. split; [exact Hrem|reflexivity].
Defined.

(** The handshake of a reconnect is rejected. *)
Lemma X2_rejected_handshake_is_final_witness :
  let w := run (subscribed (retrying 2)) [SocketClose 0; TimerFired 0] in
  let w2 := run (step w (RequestRejected 1)) [SocketClose 1; SocketOpen 1] in
  phase <$> sessions w !! 1%nat = Some Connecting ∧
  log (step w (RequestRejected 1)) = [OnError 7%nat "Failed to reconnect"] ∧
  timers (step w (RequestRejected 1)) = timers w ∧
  getSubscriptionId w2 1 = None ∧
  handle w2 (SocketClose 1) = w2.
Proof.
  pose proof (X2_rejected_handshake_is_final
    (run (subscribed (retrying 2)) [SocketClose 0; TimerFired 0]) 1
    {| this := 0; transport_url := "ws://localhost:8648/ws";
       request := headBlock; userOptions := retrying 2;
       origin := ByReconnect (Some 7%nat); phase := Connecting;
       errorListeners := []; notificationListeners := []; closed := false |}
    [SocketClose 1; SocketOpen 1] eq_refl eq_refl)
    as (_ & Ht & Hl & Hid & _ & Hclose & _).
  split; [reflexivity|]. split; [exact Hl|]. split; [exact Ht|].
  split; [exact Hid|exact Hclose].
Defined.

(** An unexpected close with [{ onError: f7 }]. *)
Lemma X3_close_without_autoReconnect_witness :
  sessions (subscribed reporting) !! O = Some (session reporting) ∧
  u_autoReconnect reporting = Missing ∧
  timers (handle (subscribed reporting) (SocketClose 0)) = [] ∧
  log (handle (subscribed reporting) (SocketClose 0)) =
    [OnError 7%nat "WebSocket connection closed unexpectedly"].
Proof.
  pose proof (X3_close_without_autoReconnect (subscribed reporting) 0
    (session reporting) node 11 eq_refl eq_refl eq_refl eq_refl
    (or_introl eq_refl)) as (Ht & _ & _ & Hl).
  split; [reflexivity|]. split; [reflexivity|]. split; [exact Ht|exact Hl].
Defined.

(** Three closes with [autoReconnect: true]. *)
Lemma X4_unbounded_retries_witness :
  let evs := [SocketClose 0; TimerFired 0; SocketClose 0; SocketClose 0] in
  reconnectSettings (options (session reconnecting)) =
    Some {| retries := None; delay := None; onFailed := None |} ∧
  closes 0 evs = 3%nat ∧
  length (timers (run (subscribed reconnecting) evs)) = 3%nat ∧
  (∃ y, timers (handle (subscribed reconnecting) (SocketClose 0)) !! O = Some y ∧
        t_delay y = 1000 ∧ t_pending y = true).
Proof.
  pose proof (X4_unbounded_retries (subscribed reconnecting) 0
    (session reconnecting) node
    {| retries := None; delay := None; onFailed := None |} 11
    [SocketClose 0; TimerFired 0; SocketClose 0; SocketClose 0]
    eq_refl eq_refl eq_refl eq_refl eq_refl (or_introl eq_refl)) as H.
  destruct H as (_ & Hy & Hlen & _).
  { repeat constructor; by (left + right). }
  split; [reflexivity|]. split; [reflexivity|]. split; [exact Hlen|exact Hy].
Defined.

(** Events among which no socket closes. *)
Lemma X5_only_close_sets_timers_witness :
  let evs := [SocketError 0 "reset"; SocketOpen 0; CallNext 0 1%nat;
              RpcError 0 {| code := -32000; message := "Server error" |};
              CallClose 0] in
  length (timers (run (subscribed reconnecting) evs)) = O ∧
  failed_calls (log (run (subscribed reconnecting) evs)) = O.
Proof.
  apply (X5_only_close_sets_timers (subscribed reconnecting)
    [SocketError 0 "reset"; SocketOpen 0; CallNext 0 1%nat;
     RpcError 0 {| code := -32000; message := "Server error" |};
     CallClose 0]).
  by repeat constructor.
Defined.

(** [filter: undefined] given to a helper. *)
Lemma X6_defaults_merged_twice_witness :
  let u : @UserOptions Z :=
    {| u_once := Given true; u_filter := Undefined; u_timeout := Missing;
       u_onError := Missing; u_autoReconnect := Missing |} in
  u_filter u = Undefined ∧
  filter (merge_options (spread_options (Some u))) = None ∧
  once (merge_options (spread_options (Some u))) = Some true ∧
  timeout (merge_options (spread_options (Some u))) = Some 5000.
Proof.
  intros u.
  pose proof (X6_defaults_merged_twice u) as (Hm & _ & Hf).
  split; [reflexivity|]. split; [exact (Hf eq_refl)|]. by rewrite Hm.
Defined.

(** The filter [d > 10] and the payloads 5, 20, 3 and 30, with two
    callbacks; and the same after [close()]. *)
Lemma X7_notifications_in_order_witness :
  let w := run (subscribed above_ten) [CallNext 0 1%nat; CallNext 0 2%nat] in
  let ms := [block 5; block 20; block 3; block 30] in
  sessions w !! O =
    Some (add_listeners 2%nat (add_listeners 1%nat (session above_ten))) ∧
  log (run w (Notification 0 <$> ms)) =
    [CallbackResult 1%nat (payload 20); CallbackResult 2%nat (payload 20);
     CallbackResult 1%nat (payload 30); CallbackResult 2%nat (payload 30)] ∧
  closed <$> sessions (step w (CallClose 0)) !! O = Some true ∧
  log (run (step w (CallClose 0)) (Notification 0 <$> ms)) = [].
Proof.
  pose proof (X7_notifications_in_order
    (run (subscribed above_ten) [CallNext 0 1%nat; CallNext 0 2%nat]) 0
    (add_listeners 2%nat (add_listeners 1%nat (session above_ten)))
    [block 5; block 20; block 3; block 30] eq_refl) as H.
  destruct H as (Hl & _); [done|].
  pose proof (X7_notifications_in_order
    (step (run (subscribed above_ten) [CallNext 0 1%nat; CallNext 0 2%nat])
       (CallClose 0)) 0
    (closed_client (add_listeners 2%nat (add_listeners 1%nat (session above_ten))))
    [block 5; block 20; block 3; block 30] eq_refl) as H.
  destruct H as (Hc & _); [done|].
  split; [reflexivity|]. split; [exact Hl|]. split; [reflexivity|exact Hc].
Defined.

(** The socket opens, the request is sent and answered: the open event
    came before the handlers were installed, and the [Subscription] does
    not report an open connection; a later open event makes it do so. *)
Lemma X8_open_only_by_open_event_witness :
  let evs : list (@Event Z unit) :=
    [CallSubscribe 0 headBlock plain; SocketOpen 0; RequestResolved 0 11] in
  let w := run (start [node]) evs in
  isOpen node = false ∧
  opens_early (start [node]) evs = true ∧
  getSubscriptionId w 0 = Some 11 ∧
  (∀ c o, clients w !! c = Some o → isOpen o = false) ∧
  isConnectionOpen w 0 ≠ Some true ∧
  isConnectionOpen (step w (SocketOpen 0)) 0 = Some true ∧
  handle (run (start [node]) (take 1 evs)) (SocketOpen 0) =
    run (start [node]) (take 1 evs).
Proof.
  pose proof (X8_open_only_by_open_event (Data:=Z) (Metadata:=unit) [node]
    [CallSubscribe 0 headBlock plain; SocketOpen 0; RequestResolved 0 11] 0) as H.
  destruct H as (Hall & Hopen & _ & Hlater); [by repeat constructor|reflexivity|].
  pose proof (X8_open_only_by_open_event (Data:=Z) (Metadata:=unit) [node]
    [CallSubscribe 0 headBlock plain] 0) as H.
  destruct H as (_ & _ & Hearly & _); [by repeat constructor|reflexivity|].
  split; [reflexivity|]. split; [reflexivity|]. split; [reflexivity|].
  split; [exact Hall|].
  split; [exact Hopen|]. split; [exact (Hlater eq_refl)|exact (Hearly eq_refl)].
Defined.

(** [close()] twice on the sample subscription. *)
Lemma X9_close_twice_witness :
  let w1 := handle (subscribed plain) (CallClose 0) in
  sessions (subscribed plain) !! O = Some (session plain) ∧
  handle w1 (CallClose 0) = w1 ∧
  explicitlyClosed <$> clients w1 !! O = Some true.
Proof.
  pose proof (X9_close_twice (subscribed plain) 0 (session plain) node 11
    eq_refl eq_refl eq_refl) as (Hsame & _).
  split; [reflexivity|]. split; [exact Hsame|reflexivity].
Defined.

